(** * Crop-insurance claim scoring: geolocation, weather correlation, decision

    A shallow embedding of the scoring pieces of the backend and of the code
    around them:

    - [Geolocation]: [GeolocationService.verifyCoordinates] and
      [_detectOutliers];
    - [Weather]: [WeatherService.getCurrentWeather], [_getMockWeatherData]
      and [verifyWeatherDamageCorrelation], with the service's cache;
    - [Decision]: [determineClaimDecision], [mapPythonToFrontend] and
      [generateFallbackResult] of the server;
    - [Frontend]: the confidence bar and [getSeverityFromPercent] of the
      result page;
    - [Auth]: the two OTP endpoints of the server, with their stores;
    - [Claims]: the claim store of the server: initialisation, upload,
      batch processing, completion and listing.

    JavaScript numbers are modelled by [Js.number]: [NaN], or a finite value
    idealised as a rational.  Binary rounding is not modelled; the infinities
    are not produced by any arithmetic embedded here. *)

From Stdlib Require Import QArith Qround Qabs Qminmax ZArith Lia Lqa String Ascii List Bool.
From stdpp Require Import gmap strings pretty.
Import ListNotations.

Local Open Scope Q_scope.

(** * The embedding *)

(** ** JavaScript values *)

Module Js.

(** A JS number: [NaN] or a finite value. *)
Inductive number : Type :=
| NaN
| Num (q : Q).

(** A field as it is found on a JSON-like object: absent ([undefined]),
    [null], or a number. *)
Inductive value : Type :=
| VUndefined
| VNull
| VNum (n : number).

Definition Qltb (x y : Q) : bool := negb (Qle_bool y x).

(** Relational operators: every comparison with [NaN] is [false]. *)
Definition ltb (a b : number) : bool :=
  match a, b with
  | Num x, Num y => Qltb x y
  | _, _ => false
  end.

Definition gtb (a b : number) : bool := ltb b a.

Definition geb (a b : number) : bool :=
  match a, b with
  | Num x, Num y => Qle_bool y x
  | _, _ => false
  end.

Definition add (a b : number) : number :=
  match a, b with
  | Num x, Num y => Num (x + y)
  | _, _ => NaN
  end.

Definition mul (a b : number) : number :=
  match a, b with
  | Num x, Num y => Num (x * y)
  | _, _ => NaN
  end.

(** Division.  The only zero divisor reached by the code embedded here is
    the length of an empty array under a zero sum, and [0 / 0] is [NaN]. *)
Definition div (a b : number) : number :=
  match a, b with
  | Num x, Num y => if Qeq_bool y 0 then NaN else Num (x / y)
  | _, _ => NaN
  end.

(** [x % m] for a finite non-zero [m]: the remainder has the sign of the
    dividend (the quotient is truncated towards zero). *)
Definition Qrem (x m : Q) : Q :=
  let k := x / m in
  x - m * inject_Z (Z.quot (Qnum k) (Zpos (Qden k))).

Definition rem (a b : number) : number :=
  match a, b with
  | Num x, Num y => if Qeq_bool y 0 then NaN else Num (Qrem x y)
  | _, _ => NaN
  end.

(** [ToNumber] on the values of the model. *)
Definition ToNumber (v : value) : number :=
  match v with
  | VUndefined => NaN
  | VNull => Num 0
  | VNum n => n
  end.

(** The global [isNaN(v)]: is [ToNumber(v)] the value [NaN]? *)
Definition isNaN (v : value) : bool :=
  match ToNumber v with
  | NaN => true
  | Num _ => false
  end.

(** [ToBoolean]: [undefined], [null], [NaN] and [0] are falsy. *)
Definition truthy (v : value) : bool :=
  match v with
  | VNum (Num q) => negb (Qeq_bool q 0)
  | _ => false
  end.

(** [v || d] for a numeric default [d]; the operand that is kept is then
    used as a number. *)
Definition or_default (v : value) (d : number) : number :=
  if truthy v then ToNumber v else d.

(** [Math.max(lo, Math.min(hi, x))] on finite values. *)
Definition clamp (lo hi x : Q) : Q := Qmax lo (Qmin hi x).

End Js.

(** ** The decision engine (server) *)

Module Decision.
Import Js.

Inductive decision_t : Type := APPROVE | MANUAL_REVIEW | REJECT.

Inductive status_t : Type := approved | manual_review | rejected.

Inductive action_t : Type :=
| PROCESS_PAYOUT | SCHEDULE_MANUAL_REVIEW | REQUEST_RESUBMISSION.

Inductive risk_t : Type := low | medium | high.

Inductive payout_status_t : Type := processing | pending_review | payout_rejected.

Inductive threshold_t : Type := auto_approve | threshold_manual_review | reject_retry.

(** [pythonResult.overall_assessment] *)
Record overall_assessment_t : Type := {
  confidence_score : value
}.

(** [pythonResult.payout_calculation] *)
Record payout_calculation_t : Type := {
  sum_insured : value;
  damage_percent : value;
  final_payout_amount : value
}.

(** The fields of the Python pipeline's output that the decision code
    reads; either object may be absent. *)
Record pythonResult_t : Type := {
  overall_assessment : option overall_assessment_t;
  payout_calculation : option payout_calculation_t
}.

(** The object returned by [determineClaimDecision].  [reason] is the
    template instance: the band fixes the text, [reason_confidence] is the
    interpolated confidence. *)
Record decision_record : Type := {
  decision : decision_t;
  status : status_t;
  action : action_t;
  risk : risk_t;
  manual_review_required : bool;
  reason_confidence : number;
  payout_approved : bool
}.

(** [pythonResult.overall_assessment?.confidence_score || 0] *)
Definition confidence_of (pythonResult : pythonResult_t) : number :=
  or_default
    (match overall_assessment pythonResult with
     | Some oa => confidence_score oa
     | None => VUndefined
     end)
    (Num 0).

Definition determineClaimDecision (pythonResult : pythonResult_t) : decision_record :=
  let confidence := confidence_of pythonResult in
  if geb confidence (Num 0.70) then
    {| decision := APPROVE; status := approved; action := PROCESS_PAYOUT;
       risk := low; manual_review_required := false;
       reason_confidence := confidence; payout_approved := true |}
  else if geb confidence (Num 0.30) && ltb confidence (Num 0.70) then
    {| decision := MANUAL_REVIEW; status := manual_review;
       action := SCHEDULE_MANUAL_REVIEW;
       risk := medium; manual_review_required := true;
       reason_confidence := confidence; payout_approved := false |}
  else
    {| decision := REJECT; status := rejected; action := REQUEST_RESUBMISSION;
       risk := high; manual_review_required := false;
       reason_confidence := confidence; payout_approved := false |}.

(** The [final_decision] and [payout_calculation] parts of the object
    built by [mapPythonToFrontend]; the remaining parts copy fields of
    [pythonResult] and take no part in the decision. *)
Record frontend_payout : Type := {
  fp_sum_insured : value;
  fp_damage_percent : value;
  fp_payout_approved : bool;
  fp_payout_status : payout_status_t;
  fp_final_payout_amount : value
}.

Record frontend_result : Type := {
  overall_confidence : number;
  fd_decision : decision_t;
  fd_threshold_applied : threshold_t;
  fd_payout_approved : bool;
  fr_payout_calculation : frontend_payout
}.

Definition field {A} (o : option A) (f : A -> value) : value :=
  match o with
  | Some x => f x
  | None => VUndefined
  end.

Definition mapPythonToFrontend (pythonResult : pythonResult_t) : frontend_result :=
  let confidence := confidence_of pythonResult in
  let d := determineClaimDecision pythonResult in
  {| overall_confidence := confidence;
     fd_decision := decision d;
     fd_threshold_applied :=
       if geb confidence (Num 0.70) then auto_approve
       else if geb confidence (Num 0.30) then threshold_manual_review
       else reject_retry;
     fd_payout_approved := payout_approved d;
     fr_payout_calculation :=
       {| fp_sum_insured := field (payout_calculation pythonResult) sum_insured;
          fp_damage_percent := field (payout_calculation pythonResult) damage_percent;
          fp_payout_approved := payout_approved d;
          fp_payout_status :=
            match decision d with
            | APPROVE => processing
            | MANUAL_REVIEW => pending_review
            | REJECT => payout_rejected
            end;
          fp_final_payout_amount :=
            if payout_approved d
            then field (payout_calculation pythonResult) final_payout_amount
            else VNum (Num 0) |} |}.

(** The decision-bearing fields of [generateFallbackResult]: fixed
    constants, whatever the files and the reason. *)
Record fallback_result : Type := {
  fb_final_decision : decision_t;
  fb_confidence_score : number;
  fb_manual_review_required : bool;
  fb_sum_insured : number;
  fb_damage_percent : number;
  fb_final_payout_amount : number
}.

Definition generateFallbackResult : fallback_result :=
  {| fb_final_decision := MANUAL_REVIEW;
     fb_confidence_score := Num 0.3;
     fb_manual_review_required := true;
     fb_sum_insured := Num 100000;
     fb_damage_percent := Num 42.5;
     fb_final_payout_amount := Num 42500 |}.

(** A pipeline output whose confidence is the number [c]. *)
Definition with_confidence (c : Q) (pc : option payout_calculation_t) : pythonResult_t :=
  {| overall_assessment := Some {| confidence_score := VNum (Num c) |};
     payout_calculation := pc |}.

End Decision.

(** ** The geolocation service *)

Module Geolocation.
Import Js.

Inductive status_t : Type := PASS | WARNING | FAIL.

(** An element of [coordinatesList]; the [source] field is never read. *)
Record point : Type := {
  lat : value;
  lon : value
}.

(** What [geolib.getCenter] returns. *)
Record center_t : Type := {
  latitude : number;
  longitude : number
}.

(** The entries of [results.details], one constructor per message
    template, carrying the interpolated values. *)
Inductive detail : Type :=
| NoImageCoordinates
| NoValidGPS
| ExtremeSpread (spreadKm : number)
| HighSpread (spreadKm : number)
| NormalSpread (spreadKm : number)
| DetectedOutliers (n : nat)
| UserMismatch (userDist : number)
| UserMatch (userDist : number).

Record metrics_t : Type := {
  center : center_t;
  spread_km : number;
  dist_to_user_m : option number
}.

(** The returned object; the two early returns carry no [metrics]. *)
Record results_t : Type := {
  status : status_t;
  score : Q;
  details : list detail;
  metrics : option metrics_t
}.

Definition MAX_CLUSTER_SPREAD_KM : Q := 5.0.
Definition WARNING_THRESHOLD_KM : Q := 2.0.
Definition EXIF_USER_TOLERANCE_M : Q := 100.

(** [c && !isNaN(c.lat) && !isNaN(c.lon)]; a [null] or [undefined] element
    is [None]. *)
Definition is_valid (c : option point) : bool :=
  match c with
  | Some p => negb (isNaN (lat p)) && negb (isNaN (lon p))
  | None => false
  end.

(** [coordinatesList.filter(...)]: the elements that pass, in order. *)
Fixpoint filter_valid (l : list (option point)) : list point :=
  match l with
  | [] => []
  | c :: l' =>
      match c with
      | Some p => if is_valid c then p :: filter_valid l' else filter_valid l'
      | None => filter_valid l'
      end
  end.

Definition no_coordinates : results_t :=
  {| status := WARNING; score := 0.5;
     details := [NoImageCoordinates]; metrics := None |}.

Definition no_valid_gps : results_t :=
  {| status := WARNING; score := 0.5;
     details := [NoValidGPS]; metrics := None |}.

(** [geolib] is an external library: its two entry points are taken as
    given. *)
Class Geolib : Type := {
  getCenter : list point -> center_t;
  getDistance : center_t -> point -> number
}.

Section Service.

Context {geolib : Geolib}.

(** The [forEach] loop that computes [maxDist]. *)
Definition max_distance (ctr : center_t) (validCoords : list point) : number :=
  fold_left
    (fun maxDist c =>
       let dist := getDistance ctr c in
       if gtb dist maxDist then dist else maxDist)
    validCoords (Num 0).

Definition distances_of (coords : list point) (ctr : center_t) : list number :=
  map (getDistance ctr) coords.

(** [distances.reduce((a, b) => a + b, 0) / distances.length] *)
Definition avgDist (coords : list point) (ctr : center_t) : number :=
  let distances := distances_of coords ctr in
  div (fold_left add distances (Num 0))
      (Num (inject_Z (Z.of_nat (length distances)))).

Definition _detectOutliers (coords : list point) (ctr : center_t) : list point :=
  let distances := distances_of coords ctr in
  let avg := avgDist coords ctr in
  if ltb avg (Num 10) then []
  else
    map fst
      (List.filter (fun cd : point * number => gtb (snd cd) (mul avg (Num 3)))
              (combine coords distances)).

(** Step 1 of [verifyCoordinates]: the spread policy. *)
Definition check_spread (spreadKm : number) (results : results_t) : results_t :=
  if gtb spreadKm (Num MAX_CLUSTER_SPREAD_KM) then
    {| status := FAIL; score := score results - 0.6;
       details := details results ++ [ExtremeSpread spreadKm];
       metrics := metrics results |}
  else if gtb spreadKm (Num WARNING_THRESHOLD_KM) then
    {| status := WARNING; score := score results - 0.3;
       details := details results ++ [HighSpread spreadKm];
       metrics := metrics results |}
  else
    {| status := status results; score := score results;
       details := details results ++ [NormalSpread spreadKm];
       metrics := metrics results |}.

(** Step 2: the outlier penalty. *)
Definition apply_outliers (outliers : list point) (results : results_t) : results_t :=
  if (0 <? length outliers)%nat then
    {| status := status results;
       score := score results - inject_Z (Z.of_nat (length outliers)) * 0.1;
       details := details results ++ [DetectedOutliers (length outliers)];
       metrics := metrics results |}
  else results.

Definition set_dist_to_user (userDist : number) (m : option metrics_t) : option metrics_t :=
  match m with
  | Some m' => Some {| center := center m'; spread_km := spread_km m';
                       dist_to_user_m := Some userDist |}
  | None => None
  end.

(** Step 3: the user-location match, guarded by
    [userLocation && userLocation.lat]. *)
Definition check_user (ctr : center_t) (userLocation : option point)
           (results : results_t) : results_t :=
  match userLocation with
  | Some u =>
      if truthy (lat u) then
        let userDist := getDistance ctr u in
        if gtb userDist (Num (EXIF_USER_TOLERANCE_M * 5)) then
          {| status := match status results with PASS => WARNING | s => s end;
             score := score results - 0.3;
             details := details results ++ [UserMismatch userDist];
             metrics := set_dist_to_user userDist (metrics results) |}
        else
          {| status := status results; score := score results;
             details := details results ++ [UserMatch userDist];
             metrics := set_dist_to_user userDist (metrics results) |}
      else results
  | None => results
  end.

(** [results.score = Math.max(0, Math.min(1, results.score))] *)
Definition clamp_score (results : results_t) : results_t :=
  {| status := status results; score := clamp 0 1 (score results);
     details := details results; metrics := metrics results |}.

(** The [results] object as created, with [metrics.center] and
    [metrics.spread_km] filled in. *)
Definition initial_results (ctr : center_t) (spreadKm : number) : results_t :=
  {| status := PASS; score := 1.0; details := [];
     metrics := Some {| center := ctr; spread_km := spreadKm;
                        dist_to_user_m := None |} |}.

(** The body of [verifyCoordinates] once [validCoords] is not empty. *)
Definition verify_valid (validCoords : list point) (userLocation : option point)
  : results_t :=
  let ctr := getCenter validCoords in
  let maxDist := max_distance ctr validCoords in
  let spreadKm := div maxDist (Num 1000) in
  let results := initial_results ctr spreadKm in
  let results := check_spread spreadKm results in
  let outliers := _detectOutliers validCoords ctr in
  let results := apply_outliers outliers results in
  let results := check_user ctr userLocation results in
  clamp_score results.

(** [coordinatesList] is [None] when the argument is missing. *)
Definition verifyCoordinates (coordinatesList : option (list (option point)))
           (userLocation : option point) : results_t :=
  match coordinatesList with
  | None => no_coordinates
  | Some [] => no_coordinates
  | Some l =>
      match filter_valid l with
      | [] => no_valid_gps
      | validCoords => verify_valid validCoords userLocation
      end
  end.

End Service.

(** An element is unusable for the filter when it is absent or one of
    its coordinates converts to [NaN]. *)
Definition unusable (c : option point) : Prop :=
  match c with
  | Some p => isNaN (lat p) = true \/ isNaN (lon p) = true
  | None => True
  end.

(** The point [{lat: null, lon: null}]: [isNaN(null)] is [false]. *)
Definition null_point : point := {| lat := VNull; lon := VNull |}.

(** *** A planar stand-in for [geolib]

    Used only to run the model on examples: coordinates are read as metres
    on a plane, the centre is the mean of the points and the distance is
    the sum of the offsets along the two axes. *)

Definition sub (a b : number) : number :=
  match a, b with
  | Num x, Num y => Num (x - y)
  | _, _ => NaN
  end.

Definition abs (a : number) : number :=
  match a with
  | Num x => Num (Qred (Qabs x))
  | NaN => NaN
  end.

Definition mean (l : list number) : number :=
  match div (fold_left add l (Num 0)) (Num (inject_Z (Z.of_nat (length l)))) with
  | Num x => Num (Qred x)
  | NaN => NaN
  end.

Definition planar_getCenter (l : list point) : center_t :=
  {| latitude := mean (map (fun p => ToNumber (lat p)) l);
     longitude := mean (map (fun p => ToNumber (lon p)) l) |}.

Definition planar_getDistance (ctr : center_t) (p : point) : number :=
  add (abs (sub (ToNumber (lat p)) (latitude ctr)))
      (abs (sub (ToNumber (lon p)) (longitude ctr))).

Definition at_ (x y : Q) : option point :=
  Some {| lat := VNum (Num x); lon := VNum (Num y) |}.

(** Four points at 5, 5, 5 and 7 metres from their centre. *)
Definition tight_cluster : list (option point) :=
  [at_ 4 1; at_ (-4) 1; at_ 0 5; at_ 0 (-7)].

(** The planar stand-in as an implementation of the interface. *)
Definition planar : Geolib :=
  {| getCenter := planar_getCenter; getDistance := planar_getDistance |}.

(** *** Quantities named in the properties *)

(** [spreadKm], as [verifyCoordinates] computes it for [validCoords]. *)
Definition spread_of {geolib : Geolib} (validCoords : list point) : number :=
  div (max_distance (getCenter validCoords) validCoords) (Num 1000).

(** The user-location step runs and finds the user farther than
    [EXIF_USER_TOLERANCE_M * 5] from the centre. *)
Definition user_mismatch {geolib : Geolib} (validCoords : list point)
           (userLocation : option point) : bool :=
  match userLocation with
  | Some u =>
      truthy (lat u)
      && gtb (getDistance (getCenter validCoords) u) (Num (EXIF_USER_TOLERANCE_M * 5))
  | None => false
  end.

(** The highest score a result with a given status can carry. *)
Definition status_bound (s : status_t) : Q :=
  match s with
  | PASS => 1
  | WARNING => 0.7
  | FAIL => 0.4
  end.

Fixpoint Qsum (l : list Q) : Q :=
  match l with
  | [] => 0
  | x :: l' => x + Qsum l'
  end.

(** The average distance in the words of the specification: the sum of the
    distances of the points to the centre, over the number of points. *)
Definition average_distance (ds : list Q) : Q :=
  Qsum ds / inject_Z (Z.of_nat (length ds)).

(** Seven points at the origin and one 800 m away: the far point is the
    only outlier. *)
Definition far_point_cluster : list (option point) :=
  [at_ 0 0; at_ 0 0; at_ 0 0; at_ 0 0; at_ 0 0; at_ 0 0; at_ 0 0; at_ 800 0].

End Geolocation.

(** ** The weather service *)

Module Weather.
Import Js.

Inductive status_t : Type := MATCH | MISMATCH | NEUTRAL | UNKNOWN.

(** An entry of [DAMAGE_WEATHER_CORRELATION]; [minTemp] and [maxHumidity]
    are [undefined] on the entries that do not define them. *)
Record rule : Type := {
  supporting : list string;
  contradicting : list string;
  minTemp : value;
  maxHumidity : value
}.

Definition DR_rule : rule :=
  {| supporting := ["Clear"; "Clouds"];
     contradicting := ["Rain"; "Thunderstorm"; "Drizzle"];
     minTemp := VNum (Num 30);
     maxHumidity := VNum (Num 40) |}.

Definition ND_rule : rule :=
  {| supporting := ["Rain"; "Extreme"]; contradicting := [];
     minTemp := VUndefined; maxHumidity := VUndefined |}.

Definition WD_rule : rule :=
  {| supporting := ["Rain"; "Clear"; "Clouds"];
     contradicting := ["Snow"; "Extreme"];
     minTemp := VUndefined; maxHumidity := VUndefined |}.

Definition G_rule : rule :=
  {| supporting := ["Clear"; "Clouds"; "Rain"]; contradicting := ["Extreme"];
     minTemp := VUndefined; maxHumidity := VUndefined |}.

Definition other_rule : rule :=
  {| supporting := []; contradicting := [];
     minTemp := VUndefined; maxHumidity := VUndefined |}.

(** The own properties of the object literal. *)
Definition own_property (key : string) : option rule :=
  if String.eqb key "DR" then Some DR_rule
  else if String.eqb key "ND" then Some ND_rule
  else if String.eqb key "WD" then Some WD_rule
  else if String.eqb key "G" then Some G_rule
  else if String.eqb key "other" then Some other_rule
  else None.

(** The property names an object literal inherits from
    [Object.prototype]; each of them reads as a function (or, for
    [__proto__], as the prototype object): a truthy value with no
    [supporting] property. *)
Definition object_prototype_names : list string :=
  ["constructor"; "__defineGetter__"; "__defineSetter__"; "hasOwnProperty";
   "__lookupGetter__"; "__lookupSetter__"; "isPrototypeOf";
   "propertyIsEnumerable"; "toString"; "valueOf"; "__proto__";
   "toLocaleString"].

Definition includes (l : list string) (x : string) : bool :=
  existsb (String.eqb x) l.

(** What [DAMAGE_WEATHER_CORRELATION[key]] evaluates to. *)
Inductive property : Type :=
| Own (r : rule)
| Inherited
| Absent.

Definition DAMAGE_WEATHER_CORRELATION (key : string) : property :=
  match own_property key with
  | Some r => Own r
  | None => if includes object_prototype_names key then Inherited else Absent
  end.

(** [DAMAGE_WEATHER_CORRELATION[damageType] ||
    DAMAGE_WEATHER_CORRELATION['other']]: [None] stands for the truthy
    inherited value, on which [correlation.supporting.includes] raises a
    [TypeError]. *)
Definition correlation_of (damageType : string) : option rule :=
  match DAMAGE_WEATHER_CORRELATION damageType with
  | Own r => Some r
  | Inherited => None
  | Absent => Some other_rule
  end.

(** The weather object; [isMock] is absent on provider data. *)
Record weather_t : Type := {
  temp : value;
  humidity : value;
  condition : string;
  description : string;
  windSpeed : value;
  timestamp : Z;
  isMock : bool
}.

(** The fields read from a provider response. *)
Record provider_response : Type := {
  main_temp : value;
  main_humidity : value;
  weather0_main : string;
  weather0_description : string;
  wind_speed : value
}.

(** What one call of [getCurrentWeather] observes of the outside world:
    the readings of [Date.now()] (at the cache check, for the data's
    [timestamp], and at the cache update) and the provider's answer, if it
    is asked; [None] is a rejected request or a response without the
    expected fields, both of which raise inside the [try] block. *)
Record env : Type := {
  now_check : Z;
  now_data : Z;
  now_store : Z;
  response : option provider_response
}.

(** A value of the cache: [{ data, timestamp }]. *)
Record cache_entry : Type := {
  data : weather_t;
  stored_at : Z
}.

Record service : Type := {
  apiKey : option string;
  cache : gmap string cache_entry
}.

Definition CACHE_TTL : Z := 3600 * 1000.

Definition two_digits (n : Z) : string :=
  if (n <? 10)%Z then "0" +:+ pretty n else pretty n.

(** [x.toFixed(2)]: the sign of a negative [x], then the integer nearest
    to [|x| * 100] (the larger one on a tie) written with two decimals.
    The exponent form used from 1e21 on is not modelled. *)
Definition toFixed2 (x : number) : string :=
  match x with
  | NaN => "NaN"
  | Num q =>
      let n := Qfloor (Qabs q * 100 + (1 # 2)) in
      (if Qltb q 0 then "-" else "")
        +:+ pretty (n / 100)%Z +:+ "." +:+ two_digits (n mod 100)%Z
  end.

Definition cacheKey (lat lon : number) : string :=
  toFixed2 lat +:+ "," +:+ toFixed2 lon.

Definition key_not_configured (svc : service) : bool :=
  match apiKey svc with
  | None => true
  | Some k => String.eqb k "" || String.eqb k "your_openweathermap_api_key_here"
  end.

Definition _getMockWeatherData (e : env) (lat lon : number) : weather_t :=
  let isDry := gtb (rem (add lat lon) (Num 2)) (Num 1) in
  {| temp := VNum (Num (if isDry then 32 else 24));
     humidity := VNum (Num (if isDry then 35 else 75));
     condition := if isDry then "Clear" else "Rain";
     description := if isDry then "clear sky" else "light rain";
     windSpeed := VNum (Num 5.2);
     timestamp := now_data e;
     isMock := true |}.

(** The cached data for [key], when there is an entry and it is younger
    than [CACHE_TTL]. *)
Definition cached (svc : service) (e : env) (key : string) : option weather_t :=
  match cache svc !! key with
  | Some entry =>
      if (now_check e - stored_at entry <? CACHE_TTL)%Z then Some (data entry)
      else None
  | None => None
  end.

(** The outcome of one call: the weather returned, the service
    afterwards, and the number of requests sent to the provider. *)
Record outcome (A : Type) : Type := {
  returned : A;
  after : service;
  requests : nat
}.
Arguments returned {A} _.
Arguments after {A} _.
Arguments requests {A} _.

Definition getCurrentWeather (svc : service) (e : env) (lat lon : number)
  : outcome weather_t :=
  let key := cacheKey lat lon in
  match cached svc e key with
  | Some d => {| returned := d; after := svc; requests := 0 |}
  | None =>
      if key_not_configured svc then
        {| returned := _getMockWeatherData e lat lon; after := svc; requests := 0 |}
      else
        match response e with
        | Some resp =>
            let weatherData :=
              {| temp := main_temp resp;
                 humidity := main_humidity resp;
                 condition := weather0_main resp;
                 description := weather0_description resp;
                 windSpeed := wind_speed resp;
                 timestamp := now_data e;
                 isMock := false |} in
            {| returned := weatherData;
               after :=
                 {| apiKey := apiKey svc;
                    cache := <[key := {| data := weatherData;
                                         stored_at := now_store e |}]> (cache svc) |};
               requests := 1 |}
        | None =>
            {| returned := _getMockWeatherData e lat lon; after := svc; requests := 1 |}
        end
  end.

(** The entries of [details], one constructor per message template. *)
Inductive detail : Type :=
| ConditionSupports (condition damageType : string)
| ConditionContradicts (condition damageType : string)
| HighTemperature (temp : value)
| LowTemperature (temp : value)
| LowHumidity (humidity : value)
| HighHumidity (humidity : value).

Inductive error_t : Type := TypeError.

(** The returned object: the regular one has [weather_context] and
    [details], the one built in the [catch] block has [error]. *)
Record result : Type := {
  status : status_t;
  score : Q;
  weather_context : option weather_t;
  details : list detail;
  error : option error_t
}.

(** The three local variables of the scoring code. *)
Record locals : Type := {
  l_score : Q;
  l_status : status_t;
  l_details : list detail
}.

Definition check_condition (correlation : rule) (weather : weather_t)
           (damageType : string) (v : locals) : locals :=
  if includes (supporting correlation) (condition weather) then
    {| l_score := l_score v + 0.3; l_status := l_status v;
       l_details := l_details v ++ [ConditionSupports (condition weather) damageType] |}
  else if includes (contradicting correlation) (condition weather) then
    {| l_score := l_score v - 0.4; l_status := MISMATCH;
       l_details := l_details v ++ [ConditionContradicts (condition weather) damageType] |}
  else v.

Definition check_temperature (correlation : rule) (weather : weather_t)
           (v : locals) : locals :=
  if gtb (ToNumber (temp weather)) (ToNumber (minTemp correlation)) then
    {| l_score := l_score v + 0.2; l_status := l_status v;
       l_details := l_details v ++ [HighTemperature (temp weather)] |}
  else if ltb (ToNumber (temp weather)) (Num 20) then
    {| l_score := l_score v - 0.2; l_status := l_status v;
       l_details := l_details v ++ [LowTemperature (temp weather)] |}
  else v.

Definition check_humidity (correlation : rule) (weather : weather_t)
           (v : locals) : locals :=
  if ltb (ToNumber (humidity weather)) (ToNumber (maxHumidity correlation)) then
    {| l_score := l_score v + 0.1; l_status := l_status v;
       l_details := l_details v ++ [LowHumidity (humidity weather)] |}
  else if gtb (ToNumber (humidity weather)) (Num 80) then
    {| l_score := l_score v - 0.3; l_status := MISMATCH;
       l_details := l_details v ++ [HighHumidity (humidity weather)] |}
  else v.

(** [Cap score], then the two threshold tests, in the order of the
    source. *)
Definition resolve (v : locals) : locals :=
  let score := clamp 0.1 0.99 (l_score v) in
  let status := if Qltb 0.7 score then MATCH else l_status v in
  let status := if Qltb score 0.3 then MISMATCH else status in
  {| l_score := score; l_status := status; l_details := l_details v |}.

(** The scoring code between the [await] and the [return]; [inl] is an
    exception raised on the way. *)
Definition correlate (weather : weather_t) (damageType : string) : error_t + result :=
  match correlation_of damageType with
  | None => inl TypeError
  | Some correlation =>
      let v := {| l_score := 0.5; l_status := NEUTRAL; l_details := [] |} in
      let v := check_condition correlation weather damageType v in
      let v :=
        if String.eqb damageType "DR"
        then check_humidity correlation weather (check_temperature correlation weather v)
        else v in
      let v := resolve v in
      inr {| status := l_status v; score := l_score v;
             weather_context := Some weather; details := l_details v;
             error := None |}
  end.

Definition verifyWeatherDamageCorrelation (svc : service) (e : env)
           (lat lon : number) (damageType : string) (claimTimestamp : Z)
  : outcome result :=
  let w := getCurrentWeather svc e lat lon in
  {| returned :=
       match correlate (returned w) damageType with
       | inr r => r
       | inl err =>
           {| status := UNKNOWN; score := 0.5; weather_context := None;
              details := []; error := Some err |}
       end;
     after := after w;
     requests := requests w |}.

(** A forced MISMATCH: the observed condition is in the contradicting set
    of the rule in force, or the claim is a drought claim and the humidity
    exceeds 80. *)
Definition forced_mismatch (weather : weather_t) (damageType : string) : Prop :=
  (exists r, correlation_of damageType = Some r /\
             includes (contradicting r) (condition weather) = true) \/
  (damageType = "DR" /\ gtb (ToNumber (humidity weather)) (Num 80) = true).

(** *** Services and observations used in examples *)

Definition no_key_service : service := {| apiKey := None; cache := ∅ |}.

Definition keyed_service : service := {| apiKey := Some "6f1d"; cache := ∅ |}.

Definition offline (t : Z) : env :=
  {| now_check := t; now_data := t; now_store := t; response := None |}.

(** The provider reports rain, 10 degrees and 90 per cent humidity. *)
Definition cold_rain (t : Z) : env :=
  {| now_check := t; now_data := t; now_store := t;
     response := Some {| main_temp := VNum (Num 10);
                         main_humidity := VNum (Num 90);
                         weather0_main := "Rain";
                         weather0_description := "moderate rain";
                         wind_speed := VNum (Num 3) |} |}.

(** The provider reports clear sky, 33 degrees and 30 per cent humidity. *)
Definition clear_sky (t : Z) : env :=
  {| now_check := t; now_data := t; now_store := t;
     response := Some {| main_temp := VNum (Num 33);
                         main_humidity := VNum (Num 30);
                         weather0_main := "Clear";
                         weather0_description := "clear sky";
                         wind_speed := VNum (Num 2) |} |}.

(** *** Sequences of lookups *)

(** One lookup: what it observes and the coordinates asked for. *)
Record lookup : Type := {
  lk_env : env;
  lk_lat : number;
  lk_lon : number
}.

(** The service after a sequence of lookups, each started when the one
    before has returned. *)
Fixpoint run (svc : service) (ls : list lookup) : service :=
  match ls with
  | [] => svc
  | l :: ls' => run (after (getCurrentWeather svc (lk_env l) (lk_lat l) (lk_lon l))) ls'
  end.

(** The requests sent to the provider during the sequence. *)
Fixpoint run_requests (svc : service) (ls : list lookup) : nat :=
  match ls with
  | [] => 0
  | l :: ls' =>
      let o := getCurrentWeather svc (lk_env l) (lk_lat l) (lk_lon l) in
      requests o + run_requests (after o) ls'
  end.

(** The service as its constructor leaves it: the key of the environment
    and an empty cache. *)
Definition new_service (key : option string) : service :=
  {| apiKey := key; cache := ∅ |}.

Definition no_mock_cached (svc : service) : Prop :=
  forall k entry, cache svc !! k = Some entry -> isMock (data entry) = false.

(** [isDry] of [_getMockWeatherData]. *)
Definition is_dry (lat lon : number) : bool :=
  gtb (rem (add lat lon) (Num 2)) (Num 1).

(** A service holding one entry, stored at time 0 for the cell of
    (28.61, 77.21). *)
Definition warm_service : service :=
  {| apiKey := Some "6f1d";
     cache := {[ "28.61,77.21" :=
                 {| data := {| temp := VNum (Num 20); humidity := VNum (Num 50);
                               condition := "Clouds"; description := "few clouds";
                               windSpeed := VNum (Num 1); timestamp := 0;
                               isMock := false |};
                    stored_at := 0 |} ]} |}.

End Weather.

(** ** The result page (frontend, [ClaimResults.js]) *)

Module Frontend.
Import Js Decision.

(** [result.overall_assessment?.confidence_score || 0]; the page reads the
    same two objects of the processing result as the server does. *)
Definition confidence (result : pythonResult_t) : number :=
  or_default
    (match overall_assessment result with
     | Some oa => confidence_score oa
     | None => VUndefined
     end)
    (Num 0).

(** The class of the confidence bar: ['high'], ['medium'] or ['low']. *)
Inductive fill_t : Type := fill_high | fill_medium | fill_low.

Definition progress_fill (result : pythonResult_t) : fill_t :=
  let c := confidence result in
  if geb c (Num 0.7) then fill_high
  else if geb c (Num 0.3) then fill_medium
  else fill_low.

Inductive severity_t : Type := critical | severe | moderate | minimal.

Definition getSeverityFromPercent (percent : number) : severity_t :=
  if gtb percent (Num 60) then critical
  else if gtb percent (Num 35) then severe
  else if gtb percent (Num 15) then moderate
  else minimal.

(** [result.damage_percentage || 0] *)
Definition damagePercent (damage_percentage : value) : number :=
  or_default damage_percentage (Num 0).

(** The order of the severities, from [minimal] up. *)
Definition severity_rank (s : severity_t) : nat :=
  match s with
  | minimal => 0
  | moderate => 1
  | severe => 2
  | critical => 3
  end.

End Frontend.

(** ** The OTP login (server) *)

Module Auth.
Import Js.

(** *** The phone-number pattern *)

(** A character class of a pattern: [[lo-hi]] or [\d]. *)
Inductive char_class : Type :=
| Range (lo hi : ascii)
| Digit.

Definition in_class (cls : char_class) (c : ascii) : bool :=
  let n := nat_of_ascii c in
  match cls with
  | Range lo hi => (nat_of_ascii lo <=? n)%nat && (n <=? nat_of_ascii hi)%nat
  | Digit => (48 <=? n)%nat && (n <=? 57)%nat
  end.

(** [/^c1 c2 ... cn$/.test(s)]: the whole of [s] is matched, one character
    per class. *)
Fixpoint matches (pattern : list char_class) (s : string) : bool :=
  match pattern, s with
  | [], EmptyString => true
  | cls :: pattern', String c s' => in_class cls c && matches pattern' s'
  | _, _ => false
  end.

(** [/^[6-9]\d{9}$/] *)
Definition phone_pattern : list char_class :=
  Range "6" "9" :: List.repeat Digit 9.

Definition is_digit (c : ascii) : bool := in_class Digit c.

Fixpoint all_digits (s : string) : bool :=
  match s with
  | EmptyString => true
  | String c s' => is_digit c && all_digits s'
  end.

(** *** The stores *)

(** A value of [users]; [isAdmin] is absent on a regular user. *)
Record user : Type := {
  phoneNumber : string;
  createdAt : Z;
  isVerified : bool;
  isAdmin : bool
}.

(** A value of [otpStore]: [{ otp, otpExpiry }]. *)
Record otp_entry : Type := {
  otp : string;
  otpExpiry : Z
}.

Record state : Type := {
  users : gmap string user;
  otpStore : gmap string otp_entry
}.

Definition ADMIN_OTP : string := "258369".

(** A field of the request body: absent, or a string.  [!field] holds for
    an absent and for an empty one. *)
Definition falsy (field : option string) : bool :=
  match field with
  | None => true
  | Some s => String.eqb s ""
  end.

(** *** Send OTP *)

(** What one request observes: [Math.random()], [Date.now()] and whether
    [NODE_ENV] is ['development']. *)
Record send_env : Type := {
  s_random : Q;
  s_now : Z;
  s_development : bool
}.

(** [Math.floor(100000 + Math.random() * 900000).toString()] *)
Definition generate_otp (e : send_env) : string :=
  pretty (Qfloor (100000 + s_random e * 900000)).

(** The two answers: 400, or 200 with [devOTP] (and [adminOTP]) present in
    development only. *)
Inductive send_response : Type :=
| SendRejected
| SendOk (devOTP : option string).

Definition send_otp (st : state) (e : send_env) (phone : option string)
  : send_response * state :=
  match phone with
  | Some p =>
      if falsy phone || negb (matches phone_pattern p) then (SendRejected, st)
      else
        let o := generate_otp e in
        let otpExpiry := (s_now e + 10 * 60 * 1000)%Z in
        (SendOk (if s_development e then Some o else None),
         {| users := users st;
            otpStore := <[p := {| otp := o; otpExpiry := otpExpiry |}]> (otpStore st) |})
  | None => (SendRejected, st)
  end.

(** *** Verify OTP *)

(** The readings of the clock during one request: at the expiry test, for
    [createdAt] and for the token. *)
Record verify_env : Type := {
  v_now_expiry : Z;
  v_now_created : Z;
  v_now_token : Z
}.

(** The token is the base64 form of [phone:time] or [phone:time:admin];
    the three parts stand for it. *)
Record token_t : Type := {
  tk_phone : string;
  tk_time : Z;
  tk_admin : bool
}.

(** The answers of the endpoint: the four 400s, and the two logins. *)
Inductive verify_response : Type :=
| Missing
| AdminLogin (token : token_t)
| OtpNotFound
| OtpExpired
| InvalidOtp
| Login (token : token_t).

(** [if (!users.has(phoneNumber)) users.set(phoneNumber, ...)] *)
Definition add_user (us : gmap string user) (p : string) (created : Z) (admin : bool)
  : gmap string user :=
  match us !! p with
  | Some _ => us
  | None => <[p := {| phoneNumber := p; createdAt := created;
                      isVerified := true; isAdmin := admin |}]> us
  end.

Definition verify_otp (st : state) (e : verify_env) (phone code : option string)
  : verify_response * state :=
  match phone, code with
  | Some p, Some c =>
      if falsy phone || falsy code then (Missing, st)
      else if String.eqb c ADMIN_OTP then
        (AdminLogin {| tk_phone := p; tk_time := v_now_token e; tk_admin := true |},
         {| users := add_user (users st) p (v_now_created e) true;
            otpStore := otpStore st |})
      else
        match otpStore st !! p with
        | None => (OtpNotFound, st)
        | Some storedOTP =>
            if (otpExpiry storedOTP <? v_now_expiry e)%Z then
              (OtpExpired,
               {| users := users st; otpStore := delete p (otpStore st) |})
            else if negb (String.eqb (otp storedOTP) c) then (InvalidOtp, st)
            else
              (Login {| tk_phone := p; tk_time := v_now_token e; tk_admin := false |},
               {| users := add_user (users st) p (v_now_created e) false;
                  otpStore := delete p (otpStore st) |})
        end
  | _, _ => (Missing, st)
  end.

(** The two stores as the server starts them. *)
Definition empty_state : state := {| users := ∅; otpStore := ∅ |}.

(** *** Requests used in examples *)

Definition sample_send : send_env :=
  {| s_random := 1 # 2; s_now := 1000; s_development := false |}.

Definition sample_verify (t : Z) : verify_env :=
  {| v_now_expiry := t; v_now_created := t; v_now_token := t |}.

(** A server that knows one regular user and holds no code. *)
Definition registered_state : state :=
  {| users := {[ "9876543210" :=
                 {| phoneNumber := "9876543210"; createdAt := 0;
                    isVerified := true; isAdmin := false |} ]};
     otpStore := ∅ |}.

End Auth.

(** ** The claim store (server) *)

Module Claims.
Import Js Decision.

(** [req.file], as the upload middleware leaves it. *)
Record upload_file : Type := {
  file_path : string;
  file_originalname : string;
  file_size : Z;
  file_mimetype : string
}.

(** A value of [uploaded_files]. *)
Record file_t : Type := {
  filePath : string;
  originalName : string;
  fileSize : Z;
  mimeType : string;
  lat : number;
  lon : number;
  timestamp : number;
  stepId : string;
  mediaType : string
}.

(** What [processing_result] can hold: the output of the Python pipeline,
    or the fallback result with its reason. *)
Inductive fallback_reason : Type :=
| NoValidImages
| PipelineUnavailable
| PythonFailed.

Inductive processing_result_t : Type :=
| FromPython (r : pythonResult_t)
| Fallback (reason : fallback_reason).

(** [metadata]; [status] and [completedAt] are added on completion. *)
Record metadata_t : Type := {
  m_timestamp : Z;
  m_status : option string;
  m_completedAt : option Z
}.

(** A value of [claimResults].  [formData] is stored by the initialisation
    and never read by the server; it is left out.  [uploaded_files] holds
    the own properties of the object. *)
Record claim : Type := {
  documentId : string;
  insuranceId : option string;
  uploaded_files : gmap string file_t;
  status : option string;
  createdAt : option Z;
  metadata : metadata_t;
  processing_result : option processing_result_t
}.

(** *** Initialize *)

(** What one initialisation observes: the clock (for the identifier, for
    [createdAt], for [metadata.timestamp]), the first [Math.random()], and
    the two letters drawn from the second one. *)
Record init_env : Type := {
  i_now : Z;
  i_random : Q;
  i_letters : string;
  i_created : Z;
  i_meta : Z
}.

(** [s.slice(-n)]: the last [n] characters, or all of [s] when it is
    shorter. *)
Definition slice_last (n : nat) (s : string) : string :=
  substring (String.length s - n) n s.

(** [`CLM-${timestamp}${random}-${letters}`] *)
Definition new_document_id (e : init_env) : string :=
  "CLM-" +:+ slice_last 8 (pretty (i_now e))
         +:+ pretty (Qfloor (i_random e * 90 + 10))
         +:+ "-" +:+ i_letters e.

Definition initialize (store : gmap string claim) (e : init_env)
           (insurance : option string) : string * gmap string claim :=
  let id := new_document_id e in
  (id,
   <[id := {| documentId := id; insuranceId := insurance;
              uploaded_files := ∅; status := Some "draft";
              createdAt := Some (i_created e);
              metadata := {| m_timestamp := i_meta e; m_status := None;
                             m_completedAt := None |};
              processing_result := None |}]> store).

(** *** Upload *)

(** The request: the file, [parseFloat(lat)], [parseFloat(lon)],
    [Number(client_ts)], the identifiers, [media_type], and the clock. *)
Record upload_request : Type := {
  u_file : option upload_file;
  u_lat : number;
  u_lon : number;
  u_client_ts : number;
  u_parcel_id : string;
  u_step_id : string;
  u_media_type : option string;
  u_now : Z
}.

Inductive upload_response : Type :=
| NoFile
| InvalidCoordinates
| Uploaded (stepId : string) (filesUploaded : nat).

(** [obj[key] = v] on the own properties of a plain object: the key
    ["__proto__"] sets the prototype and adds no property. *)
Definition set_property {A : Type} (obj : gmap string A) (key : string) (v : A)
  : gmap string A :=
  if String.eqb key "__proto__" then obj else <[key := v]> obj.

Definition is_nan (n : number) : bool :=
  match n with
  | NaN => true
  | Num _ => false
  end.

(** The record created for a parcel that is not in the store. *)
Definition fresh_claim (parcel_id : string) (now : Z) : claim :=
  {| documentId := parcel_id; insuranceId := None; uploaded_files := ∅;
     status := None; createdAt := None;
     metadata := {| m_timestamp := now; m_status := None; m_completedAt := None |};
     processing_result := None |}.

Definition upload (store : gmap string claim) (r : upload_request)
  : upload_response * gmap string claim :=
  match u_file r with
  | None => (NoFile, store)
  | Some f =>
      if is_nan (u_lat r) || is_nan (u_lon r) then (InvalidCoordinates, store)
      else
        let claimData :=
          match store !! u_parcel_id r with
          | Some c => c
          | None => fresh_claim (u_parcel_id r) (u_now r)
          end in
        let entry :=
          {| filePath := file_path f; originalName := file_originalname f;
             fileSize := file_size f; mimeType := file_mimetype f;
             lat := u_lat r; lon := u_lon r;
             timestamp := or_default (VNum (u_client_ts r)) (Num (inject_Z (u_now r)));
             stepId := u_step_id r;
             mediaType := match u_media_type r with
                          | Some m => if String.eqb m "" then "photo" else m
                          | None => "photo"
                          end |} in
        let files := set_property (uploaded_files claimData) (u_step_id r) entry in
        (Uploaded (u_step_id r) (size files),
         <[u_parcel_id r :=
             {| documentId := documentId claimData;
                insuranceId := insuranceId claimData;
                uploaded_files := files;
                status := status claimData;
                createdAt := createdAt claimData;
                metadata := metadata claimData;
                processing_result := processing_result claimData |}]> store)
  end.

(** *** Batch processing *)

(** [f?.filePath && f?.mediaType === 'photo'] *)
Definition is_photo (f : file_t) : bool :=
  negb (String.eqb (filePath f) "") && String.eqb (mediaType f) "photo".

(** The local variables of the [forEach] over [Object.values(files)]. *)
Record scan_t : Type := {
  imagePaths : list string;
  userLat : option number;
  userLon : option number
}.

Definition scan_step (acc : scan_t) (f : file_t) : scan_t :=
  if is_photo f then
    match userLat acc with
    | None =>
        if truthy (VNum (lat f)) then
          {| imagePaths := imagePaths acc ++ [filePath f];
             userLat := Some (lat f); userLon := Some (lon f) |}
        else
          {| imagePaths := imagePaths acc ++ [filePath f];
             userLat := None; userLon := userLon acc |}
    | Some _ =>
        {| imagePaths := imagePaths acc ++ [filePath f];
           userLat := userLat acc; userLon := userLon acc |}
    end
  else acc.

(** The scan of the files, given in the order of [Object.values]. *)
Definition scan_files (files : list file_t) : scan_t :=
  fold_left scan_step files
            {| imagePaths := []; userLat := None; userLon := None |}.

(** A photo that can serve as the user's location: its latitude is
    truthy. *)
Definition is_reference (f : file_t) : bool :=
  is_photo f && truthy (VNum (lat f)).

(** [imagePaths.length * 1500] *)
Definition estimatedFieldSize (s : scan_t) : nat := length (imagePaths s) * 1500.

(** What a completion observes: whether the pipeline script exists, what
    the Python process produced ([None]: it could not be started, failed,
    timed out or printed no valid JSON), and the clock. *)
Record complete_env : Type := {
  c_worker_exists : bool;
  c_python : option pythonResult_t;
  c_now : Z
}.

(** The values of an object, in some order. *)
Definition values_of (files : gmap string file_t) : list file_t :=
  map snd (map_to_list files).

(** [processBatchWithPython], with the rejection of the promise caught as
    the completion handler does. *)
Definition processBatchWithPython (c : claim) (e : complete_env) : processing_result_t :=
  if (length (imagePaths (scan_files (values_of (uploaded_files c)))) <? 1)%nat
  then Fallback NoValidImages
  else if negb (c_worker_exists e) then Fallback PipelineUnavailable
  else match c_python e with
       | Some r => FromPython r
       | None => Fallback PythonFailed
       end.

(** *** Complete *)

Inductive complete_response : Type :=
| MissingId
| NotFound
| Completed (documentId : string) (result : processing_result_t).

Definition complete (store : gmap string claim) (e : complete_env)
           (id : option string) : complete_response * gmap string claim :=
  match id with
  | None => (MissingId, store)
  | Some d =>
      if String.eqb d "" then (MissingId, store)
      else
        match store !! d with
        | None => (NotFound, store)
        | Some claimData =>
            let result := processBatchWithPython claimData e in
            (Completed d result,
             <[d := {| documentId := documentId claimData;
                       insuranceId := insuranceId claimData;
                       uploaded_files := uploaded_files claimData;
                       status := Some "submitted";
                       createdAt := createdAt claimData;
                       metadata :=
                         {| m_timestamp := m_timestamp (metadata claimData);
                            m_status := Some "completed";
                            m_completedAt := Some (c_now e) |};
                       processing_result := Some result |}]> store)
        end
  end.

(** *** List *)

(** An element of the list: [status] is [data.status || 'draft'],
    [submittedAt] is [data.metadata?.completedAt || data.createdAt]. *)
Record listed_claim : Type := {
  lc_status : string;
  lc_submittedAt : option Z;
  lc_insuranceId : option string
}.

Definition list_entry (data : claim) : listed_claim :=
  {| lc_status := match status data with
                  | Some s => if String.eqb s "" then "draft" else s
                  | None => "draft"
                  end;
     lc_submittedAt := match m_completedAt (metadata data) with
                       | Some t => Some t
                       | None => createdAt data
                       end;
     lc_insuranceId := insuranceId data |}.

(** The claims listed, by [documentId]. *)
Definition list_claims (store : gmap string claim) : gmap string listed_claim :=
  list_entry <$> store.

(** *** Sequences of requests *)

Inductive request : Type :=
| Initialize (e : init_env) (insurance : option string)
| Upload (r : upload_request)
| Complete (e : complete_env) (id : option string).

Definition step (store : gmap string claim) (q : request) : gmap string claim :=
  match q with
  | Initialize e insurance => snd (initialize store e insurance)
  | Upload r => snd (upload store r)
  | Complete e id => snd (complete store e id)
  end.

(** The store after a sequence of requests, starting empty. *)
Definition serve (qs : list request) : gmap string claim :=
  fold_left step qs ∅.

(** What holds of every claim in the store, under its key [id]. *)
Definition well_formed (id : string) (c : claim) : Prop :=
  documentId c = id /\
  (status c = None \/ status c = Some "draft" \/ status c = Some "submitted") /\
  (status c = Some "submitted" <-> processing_result c <> None) /\
  (forall k f, uploaded_files c !! k = Some f ->
               stepId f = k /\ is_nan (lat f) = false /\ is_nan (lon f) = false
               /\ mediaType f <> "").

(** *** Requests used in examples *)

Definition sample_file : upload_file :=
  {| file_path := "uploads/1.jpg"; file_originalname := "ne.jpg";
     file_size := 2048; file_mimetype := "image/jpeg" |}.

Definition sample_upload (step : string) : upload_request :=
  {| u_file := Some sample_file; u_lat := Num 18.52; u_lon := Num 73.85;
     u_client_ts := Num 1700; u_parcel_id := "CLM-1"; u_step_id := step;
     u_media_type := None; u_now := 1800 |}.

(** The pipeline script is there, the process fails. *)
Definition python_fails : complete_env :=
  {| c_worker_exists := true; c_python := None; c_now := 2000 |}.

End Claims.

(** * Properties *)

Module JsFacts.
Import Js.

Lemma Qltb_lt (x y : Q) : Qltb x y = true <-> x < y.
Proof.
  unfold Qltb. rewrite negb_true_iff, <- not_true_iff_false, Qle_bool_iff.
  split; intro H; [apply Qnot_le_lt | apply Qlt_not_le]; exact H.
Qed.

Lemma Qltb_ge (x y : Q) : Qltb x y = false <-> y <= x.
Proof.
  unfold Qltb. rewrite negb_false_iff. apply Qle_bool_iff.
Qed.

Lemma clamp_bounds (lo hi x : Q) : lo <= hi -> lo <= clamp lo hi x <= hi.
Proof.
  intro Hlh. unfold clamp. split.
  - apply Q.le_max_l.
  - apply Q.max_lub; [exact Hlh | apply Q.le_min_l].
Qed.

End JsFacts.

Module DecisionSpec.
Import Js JsFacts Decision.

(** *** Properties of the decision engine *)

(** The confidence read from a numeric field is that number: [c || 0] only
    replaces [0] by [0]. *)
Lemma confidence_of_number (c : Q) (pc : option payout_calculation_t) :
  exists c', confidence_of (with_confidence c pc) = Num c' /\ c' == c.
Proof.
  unfold confidence_of, with_confidence, or_default; simpl.
  destruct (Qeq_bool c 0) eqn:E; simpl.
  - exists 0. split; [reflexivity | ].
    apply Qeq_bool_iff in E. symmetry. exact E.
  - exists c. split; reflexivity.
Qed.

Lemma decision_of_number (c c' : Q) (pc : option payout_calculation_t) :
  confidence_of (with_confidence c pc) = Num c' ->
  decision (determineClaimDecision (with_confidence c pc)) =
    if Qle_bool 0.70 c' then APPROVE
    else if Qle_bool 0.30 c' && Qltb c' 0.70 then MANUAL_REVIEW
    else REJECT.
Proof.
  intro H. unfold determineClaimDecision. rewrite H. simpl.
  destruct (Qle_bool 0.70 c'); [reflexivity | ].
  destruct (Qle_bool 0.30 c' && Qltb c' 0.70); reflexivity.
Qed.

(** C1: for every numeric confidence score the decision is APPROVE exactly
    when the score is at least 0.70, MANUAL_REVIEW exactly when it lies in
    [0.30, 0.70), and REJECT exactly when it is below 0.30; the scores 0.70
    and 0.30 themselves give APPROVE and MANUAL_REVIEW. *)
Theorem determineClaimDecision_bands (c : Q) (pc : option payout_calculation_t) :
  let d := decision (determineClaimDecision (with_confidence c pc)) in
  (d = APPROVE <-> 0.70 <= c) /\
  (d = MANUAL_REVIEW <-> 0.30 <= c /\ c < 0.70) /\
  (d = REJECT <-> c < 0.30) /\
  decision (determineClaimDecision (with_confidence 0.70 pc)) = APPROVE /\
  decision (determineClaimDecision (with_confidence 0.30 pc)) = MANUAL_REVIEW.
Proof.
  cbv zeta.
  destruct (confidence_of_number c pc) as (c' & Hc & Heq).
  rewrite (decision_of_number c c' pc Hc).
  destruct (Qle_bool 0.70 c') eqn:E1.
  - apply Qle_bool_iff in E1. rewrite Heq in E1.
    repeat split; try discriminate; try reflexivity; intros; try lra.
  - assert (H1 : c < 0.70).
    { apply Qnot_le_lt. intro H. rewrite <- Heq in H.
      apply Qle_bool_iff in H. congruence. }
    destruct (Qle_bool 0.30 c') eqn:E2; simpl.
    + apply Qle_bool_iff in E2. rewrite Heq in E2.
      assert (E3 : Qltb c' 0.70 = true) by (apply Qltb_lt; rewrite Heq; exact H1).
      rewrite E3.
      repeat split; try discriminate; try reflexivity; intros; try lra.
    + assert (H2 : c < 0.30).
      { apply Qnot_le_lt. intro H. rewrite <- Heq in H.
        apply Qle_bool_iff in H. congruence. }
      repeat split; try discriminate; try reflexivity; intros; try lra.
Qed.

(** The payout field of [mapPythonToFrontend] in one equation. *)
Lemma final_payout_amount_eq (pythonResult : pythonResult_t) :
  fp_final_payout_amount (fr_payout_calculation (mapPythonToFrontend pythonResult)) =
    if payout_approved (determineClaimDecision pythonResult)
    then field (payout_calculation pythonResult) final_payout_amount
    else VNum (Num 0).
Proof. reflexivity. Qed.

(** C2, as the code has it: [mapPythonToFrontend] computes no payout.  When
    the decision is APPROVE the payout is the upstream
    [payout_calculation.final_payout_amount], passed through unchanged;
    when it is REJECT the payout is 0; when it is MANUAL_REVIEW the payout
    is also set to 0 and the payout status is [pending_review].  With an
    upstream amount of 50000 and confidence 0.8 the decision is APPROVE and
    the payout 50000. *)
Theorem mapPythonToFrontend_payout (pythonResult : pythonResult_t) :
  let r := mapPythonToFrontend pythonResult in
  let p := fr_payout_calculation r in
  fp_final_payout_amount p =
    match fd_decision r with
    | APPROVE => field (payout_calculation pythonResult) final_payout_amount
    | MANUAL_REVIEW => VNum (Num 0)
    | REJECT => VNum (Num 0)
    end /\
  fp_payout_status p =
    match fd_decision r with
    | APPROVE => processing
    | MANUAL_REVIEW => pending_review
    | REJECT => payout_rejected
    end /\
  (let e := mapPythonToFrontend
              (with_confidence 0.8
                 (Some {| sum_insured := VNum (Num 100000);
                          damage_percent := VNum (Num 50);
                          final_payout_amount := VNum (Num 50000) |})) in
   fd_decision e = APPROVE /\
   fp_final_payout_amount (fr_payout_calculation e) = VNum (Num 50000)).
Proof.
  cbv zeta. split; [ | split; [ | split; reflexivity ] ].
  - rewrite final_payout_amount_eq. unfold mapPythonToFrontend; simpl.
    unfold determineClaimDecision.
    destruct (geb (confidence_of pythonResult) (Num 0.70)); [reflexivity | ].
    destruct (geb (confidence_of pythonResult) (Num 0.30)
              && ltb (confidence_of pythonResult) (Num 0.70)); reflexivity.
  - reflexivity.
Qed.

(** C2 as stated fails: with sum insured 100000, damage 50 per cent and
    confidence 0.8, and no amount supplied upstream, the decision is
    APPROVE but the payout is [undefined], not 50000; with confidence 0.5
    the decision is MANUAL_REVIEW and the payout is set, to 0; and the
    fallback result is MANUAL_REVIEW with the payout 42500 set. *)
Lemma payout_not_computed :
  (let e := mapPythonToFrontend
              (with_confidence 0.8
                 (Some {| sum_insured := VNum (Num 100000);
                          damage_percent := VNum (Num 50);
                          final_payout_amount := VUndefined |})) in
   fd_decision e = APPROVE /\
   fp_final_payout_amount (fr_payout_calculation e) = VUndefined) /\
  (let e := mapPythonToFrontend
              (with_confidence 0.5
                 (Some {| sum_insured := VNum (Num 100000);
                          damage_percent := VNum (Num 50);
                          final_payout_amount := VNum (Num 50000) |})) in
   fd_decision e = MANUAL_REVIEW /\
   fp_final_payout_amount (fr_payout_calculation e) = VNum (Num 0)) /\
  fb_final_decision generateFallbackResult = MANUAL_REVIEW /\
  fb_final_payout_amount generateFallbackResult = Num 42500.
Proof. repeat split. Qed.

(** *** The derived fields *)

(** The confidence used by the decision is never [NaN]. *)
Lemma confidence_of_finite (pythonResult : pythonResult_t) :
  exists c, confidence_of pythonResult = Num c.
Proof.
  unfold confidence_of, or_default.
  destruct (overall_assessment pythonResult) as [oa | ]; cbn [truthy];
    [ | exists 0; reflexivity ].
  destruct (confidence_score oa) as [ | | [ | q]]; cbn [truthy ToNumber];
    try (exists 0; reflexivity).
  destruct (negb (Qeq_bool q 0)); [exists q | exists 0]; reflexivity.
Qed.

(** X12: the fields derived from the decision never disagree with it.  For
    every pipeline output, [threshold_applied] is [auto_approve],
    [manual_review] or [reject_retry] exactly as the decision is APPROVE,
    MANUAL_REVIEW or REJECT (although it is computed by a second,
    differently written test), the payout is approved exactly for APPROVE
    and a manual review required exactly for MANUAL_REVIEW. *)
Theorem derived_fields_follow_decision (pythonResult : pythonResult_t) :
  let d := determineClaimDecision pythonResult in
  let r := mapPythonToFrontend pythonResult in
  fd_decision r = decision d /\
  fd_threshold_applied r =
    match decision d with
    | APPROVE => auto_approve
    | MANUAL_REVIEW => threshold_manual_review
    | REJECT => reject_retry
    end /\
  (fd_payout_approved r = true <-> decision d = APPROVE) /\
  (manual_review_required d = true <-> decision d = MANUAL_REVIEW) /\
  (status d, action d, risk d) =
    match decision d with
    | APPROVE => (approved, PROCESS_PAYOUT, low)
    | MANUAL_REVIEW => (manual_review, SCHEDULE_MANUAL_REVIEW, medium)
    | REJECT => (rejected, REQUEST_RESUBMISSION, high)
    end.
Proof.
  cbv zeta. unfold mapPythonToFrontend, determineClaimDecision.
  destruct (confidence_of_finite pythonResult) as (c & ->).
  cbn [fd_decision fd_threshold_applied fd_payout_approved geb ltb].
  destruct (Qle_bool 0.70 c) eqn:E1.
  - cbn. repeat split; intros; try reflexivity; discriminate.
  - destruct (Qle_bool 0.30 c) eqn:E2; cbn [andb].
    + assert (E3 : Qltb c 0.70 = true).
      { apply Qltb_lt. apply Qnot_le_lt. intro H.
        apply Qle_bool_iff in H. congruence. }
      rewrite E3. cbn. repeat split; intros; try reflexivity; discriminate.
    + cbn. repeat split; intros; try reflexivity; discriminate.
Qed.

(** X13: a pipeline output without a usable confidence is rejected.  When
    [overall_assessment] or its [confidence_score] is absent, [null], [NaN]
    or 0, the confidence is taken as 0, the decision is REJECT and the
    payout is 0, whatever amount the pipeline computed. *)
Theorem missing_confidence_rejected (pythonResult : pythonResult_t) :
  truthy (field (overall_assessment pythonResult) confidence_score) = false ->
  let r := mapPythonToFrontend pythonResult in
  overall_confidence r = Num 0 /\
  fd_decision r = REJECT /\
  fd_threshold_applied r = reject_retry /\
  fp_final_payout_amount (fr_payout_calculation r) = VNum (Num 0).
Proof.
  intro H. cbv zeta.
  assert (E : confidence_of pythonResult = Num 0).
  { unfold confidence_of, or_default. unfold field in H.
    destruct (overall_assessment pythonResult); rewrite H; reflexivity. }
  unfold mapPythonToFrontend, determineClaimDecision. rewrite E.
  repeat split.
Qed.

(** A pipeline output with no [overall_assessment] at all and an upstream
    payout of 50000. *)
Lemma missing_confidence_rejected_witness :
  let r := mapPythonToFrontend
             {| overall_assessment := None;
                payout_calculation :=
                  Some {| sum_insured := VNum (Num 100000);
                          damage_percent := VNum (Num 50);
                          final_payout_amount := VNum (Num 50000) |} |} in
  fd_decision r = REJECT /\
  fp_final_payout_amount (fr_payout_calculation r) = VNum (Num 0).
Proof.
  cbv zeta.
  destruct (missing_confidence_rejected
              {| overall_assessment := None;
                 payout_calculation :=
                   Some {| sum_insured := VNum (Num 100000);
                           damage_percent := VNum (Num 50);
                           final_payout_amount := VNum (Num 50000) |} |} eq_refl)
    as (_ & Hd & _ & Hp).
  split; [exact Hd | exact Hp].
Defined.

End DecisionSpec.

Module GeolocationSpec.
Import Js JsFacts Geolocation.

Section Service.

Context {geolib : Geolib}.

(** *** Properties of the geolocation service *)

Lemma verify_valid_score_range (validCoords : list point) (userLocation : option point) :
  0 <= score (verify_valid validCoords userLocation) <= 1.
Proof.
  unfold verify_valid, clamp_score; simpl.
  apply clamp_bounds. lra.
Qed.

(** C7: whatever the coordinate list and the user location, and however
    many penalties accumulate, the returned score lies in [0, 1]. *)
Theorem verifyCoordinates_score_range
        (coordinatesList : option (list (option point)))
        (userLocation : option point) :
  0 <= score (verifyCoordinates coordinatesList userLocation) <= 1.
Proof.
  unfold verifyCoordinates.
  destruct coordinatesList as [[ | c l] | ]; cbv beta iota;
    [ simpl; lra | | simpl; lra ].
  destruct (filter_valid (c :: l)) as [ | p ps]; [ simpl; lra | ].
  apply verify_valid_score_range.
Qed.

Lemma filter_valid_unusable (l : list (option point)) :
  Forall unusable l -> filter_valid l = [].
Proof.
  induction 1 as [ | c l Hc _ IH]; [reflexivity | ].
  destruct c as [p | ]; [ | exact IH].
  change (filter_valid (Some p :: l))
    with (if is_valid (Some p) then p :: filter_valid l else filter_valid l).
  assert (E : is_valid (Some p) = false).
  { unfold is_valid. destruct Hc as [E | E]; rewrite E;
      [reflexivity | apply andb_false_r]. }
  rewrite E. exact IH.
Qed.

(** The neutral result is returned for a missing or empty list and for a
    list whose every element is absent or has a coordinate that converts
    to [NaN] ([undefined] or [NaN] itself). *)
Lemma verifyCoordinates_no_usable
      (coordinatesList : option (list (option point)))
      (userLocation : option point) :
  match coordinatesList with
  | Some l => Forall unusable l
  | None => True
  end ->
  let r := verifyCoordinates coordinatesList userLocation in
  status r = WARNING /\ score r = 0.5 /\
  (details r = [NoImageCoordinates] \/ details r = [NoValidGPS]).
Proof.
  destruct coordinatesList as [[ | c l] | ]; intro H; cbv zeta;
    try (repeat split; left; reflexivity).
  unfold verifyCoordinates. rewrite (filter_valid_unusable _ H).
  repeat split. right; reflexivity.
Qed.

Lemma max_distance_single (ctr : center_t) (p : point) :
  max_distance ctr [p] =
    if gtb (getDistance ctr p) (Num 0) then getDistance ctr p else Num 0.
Proof. reflexivity. Qed.

Lemma single_point_no_outlier (ctr : center_t) (p : point) :
  _detectOutliers [p] ctr = [].
Proof.
  unfold _detectOutliers, avgDist, distances_of; simpl.
  destruct (getDistance ctr p) as [ | d]; simpl; [reflexivity | ].
  assert (H : (0 + d) / inject_Z (Z.of_nat 1) == d) by (simpl; field).
  revert H. generalize ((0 + d) / inject_Z (Z.of_nat 1)). intros a H.
  destruct (Qltb a 10) eqn:E1; [reflexivity | ].
  simpl. destruct (Qltb (a * 3) d) eqn:E2; [ | reflexivity].
  exfalso. apply Qltb_ge in E1. apply Qltb_lt in E2.
  rewrite H in E1, E2. lra.
Qed.

(** C8 at the input [[{lat: null, lon: null}]]: the point passes the
    validity filter, the full verification runs on it, and the result is
    not the neutral one (its score is not 0.5 and it carries metrics). *)
Theorem verifyCoordinates_null_point :
  filter_valid [Some null_point] = [null_point] /\
  verifyCoordinates (Some [Some null_point]) None = verify_valid [null_point] None /\
  ~ score (verifyCoordinates (Some [Some null_point]) None) == 0.5 /\
  metrics (verifyCoordinates (Some [Some null_point]) None) <> None /\
  details (verifyCoordinates (Some [Some null_point]) None) <> [NoValidGPS].
Proof.
  split; [reflexivity | ]. split; [reflexivity | ].
  unfold verifyCoordinates; simpl filter_valid; cbv iota.
  unfold verify_valid. rewrite single_point_no_outlier.
  unfold apply_outliers, check_user, check_spread; simpl length; cbv iota.
  set (s := div (max_distance (getCenter [null_point]) [null_point]) (Num 1000)).
  destruct (gtb s (Num MAX_CLUSTER_SPREAD_KM));
    [ | destruct (gtb s (Num WARNING_THRESHOLD_KM)) ];
    simpl; (split; [ | split; discriminate ]);
    unfold clamp; intro H;
    vm_compute in H; discriminate.
Qed.

Lemma verifyCoordinates_valid (l : list (option point)) (userLocation : option point) :
  filter_valid l <> [] ->
  verifyCoordinates (Some l) userLocation = verify_valid (filter_valid l) userLocation.
Proof.
  intro H. unfold verifyCoordinates.
  destruct l as [ | c l]; [exfalso; apply H; reflexivity | ].
  destruct (filter_valid (c :: l)); [exfalso; apply H; reflexivity | reflexivity].
Qed.

(** Filtering [coords] by index against [distances] is filtering by the
    distance of each point. *)
Lemma filter_by_distance (ctr : center_t) (g : number -> bool) (coords : list point) :
  map fst (List.filter (fun cd : point * number => g (snd cd))
                       (combine coords (distances_of coords ctr)))
  = List.filter (fun c => g (getDistance ctr c)) coords.
Proof.
  unfold distances_of.
  induction coords as [ | c coords IH]; [reflexivity | ].
  simpl. destruct (g (getDistance ctr c)); simpl; rewrite IH; reflexivity.
Qed.

(** Without a user-location step the result lists no user detail and has
    no [dist_to_user_m]. *)
Lemma verify_valid_no_user (validCoords : list point) :
  let r := verify_valid validCoords None in
  (forall m, metrics r = Some m -> dist_to_user_m m = None) /\
  (forall d, ~ In (UserMismatch d) (details r) /\ ~ In (UserMatch d) (details r)).
Proof.
  cbv zeta. unfold verify_valid, check_user, clamp_score, apply_outliers, check_spread.
  set (ctr := getCenter validCoords).
  set (s := div (max_distance ctr validCoords) (Num 1000)).
  set (o := _detectOutliers validCoords ctr).
  destruct (gtb s (Num MAX_CLUSTER_SPREAD_KM));
    [ | destruct (gtb s (Num WARNING_THRESHOLD_KM)) ];
    destruct (0 <? length o)%nat; simpl;
    (split; [ intros m [= <-]; reflexivity
            | intro d; split; intro H; intuition discriminate ]).
Qed.

(** C10: a user location whose [lat] is falsy (0, [NaN], [null] or
    absent) is treated exactly as no user location: the result is the
    same object, so there is no 0.3 penalty and no status downgrade, and
    it has no user detail line and no [dist_to_user_m] metric. *)
Theorem falsy_user_latitude_skipped
        (coordinatesList : option (list (option point))) (u : point) :
  truthy (lat u) = false ->
  let r := verifyCoordinates coordinatesList (Some u) in
  r = verifyCoordinates coordinatesList None /\
  (forall m, metrics r = Some m -> dist_to_user_m m = None) /\
  (forall d, ~ In (UserMismatch d) (details r) /\ ~ In (UserMatch d) (details r)).
Proof.
  intros Hu. cbv zeta.
  assert (E : verifyCoordinates coordinatesList (Some u)
              = verifyCoordinates coordinatesList None).
  { unfold verifyCoordinates.
    destruct coordinatesList as [[ | c l] | ]; try reflexivity.
    destruct (filter_valid (c :: l)); [reflexivity | ].
    unfold verify_valid, check_user. rewrite Hu. reflexivity. }
  split; [exact E | ]. rewrite E. clear E.
  unfold verifyCoordinates.
  destruct coordinatesList as [[ | c l] | ];
    try (split; [ intros m [=] | intro d; split; intro H; simpl in H; intuition discriminate ]).
  destruct (filter_valid (c :: l)) as [ | p ps];
    try (split; [ intros m [=] | intro d; split; intro H; simpl in H; intuition discriminate ]).
  apply verify_valid_no_user.
Qed.

(** *** Status and score *)

Lemma check_spread_bound (s : number) (r : results_t) :
  status r = PASS -> score r <= 1 ->
  score (check_spread s r) <= status_bound (status (check_spread s r)).
Proof.
  intros Hs Hq. unfold check_spread.
  destruct (gtb s (Num MAX_CLUSTER_SPREAD_KM));
    [ | destruct (gtb s (Num WARNING_THRESHOLD_KM)) ];
    cbn [status score status_bound]; try rewrite Hs; cbn [status_bound]; lra.
Qed.

Lemma apply_outliers_bound (o : list point) (r : results_t) :
  score r <= status_bound (status r) ->
  score (apply_outliers o r) <= status_bound (status (apply_outliers o r)).
Proof.
  intro H. unfold apply_outliers.
  destruct (0 <? length o)%nat; [ | exact H].
  cbn [status score].
  assert (0 <= inject_Z (Z.of_nat (length o))).
  { change 0 with (inject_Z 0). rewrite <- Zle_Qle. lia. }
  nra.
Qed.

Lemma check_user_bound (ctr : center_t) (u : option point) (r : results_t) :
  score r <= status_bound (status r) ->
  score (check_user ctr u r) <= status_bound (status (check_user ctr u r)).
Proof.
  intro H. unfold check_user.
  destruct u as [u | ]; [ | exact H].
  destruct (truthy (lat u)); [ | exact H].
  destruct (gtb _ _); cbn [status score]; [ | exact H].
  destruct (status r); cbn [status_bound] in *; lra.
Qed.

Lemma clamp_score_bound (r : results_t) :
  score r <= status_bound (status r) ->
  score (clamp_score r) <= status_bound (status (clamp_score r)).
Proof.
  intro H. unfold clamp_score, clamp; cbn [status score].
  apply Q.max_lub.
  - destruct (status r); cbn [status_bound]; lra.
  - eapply Qle_trans; [apply Q.le_min_r | exact H].
Qed.

(** X1: the status caps the score.  Whatever the input, a FAIL result has a
    score of at most 0.4 and a WARNING result a score of at most 0.7. *)
Theorem status_caps_score
        (coordinatesList : option (list (option point)))
        (userLocation : option point) :
  let r := verifyCoordinates coordinatesList userLocation in
  score r <= status_bound (status r) /\
  (status r = FAIL -> score r <= 0.4) /\
  (status r = WARNING -> score r <= 0.7).
Proof.
  cbv zeta.
  assert (H : score (verifyCoordinates coordinatesList userLocation)
              <= status_bound (status (verifyCoordinates coordinatesList userLocation))).
  { unfold verifyCoordinates.
    destruct coordinatesList as [[ | c l] | ]; cbv beta iota;
      [ cbn; lra | | cbn; lra ].
    destruct (filter_valid (c :: l)) as [ | p ps]; [ cbn; lra | ].
    unfold verify_valid.
    apply clamp_score_bound, check_user_bound, apply_outliers_bound, check_spread_bound.
    - reflexivity.
    - cbn. lra. }
  split; [exact H | ].
  split; intro Hs; rewrite Hs in H; exact H.
Qed.

Lemma apply_outliers_status (o : list point) (r : results_t) :
  status (apply_outliers o r) = status r.
Proof. unfold apply_outliers. destruct (0 <? length o)%nat; reflexivity. Qed.

(** X2: the status is decided by the spread and the user distance alone.
    For a list with at least one valid point the status is FAIL when the
    spread exceeds 5 km, WARNING when it exceeds 2 km or the user location
    is checked and lies more than 500 m from the centre, and PASS
    otherwise; outliers never change it. *)
Theorem status_from_spread_and_user (l : list (option point)) (userLocation : option point) :
  filter_valid l <> [] ->
  status (verifyCoordinates (Some l) userLocation) =
    if gtb (spread_of (filter_valid l)) (Num MAX_CLUSTER_SPREAD_KM) then FAIL
    else if gtb (spread_of (filter_valid l)) (Num WARNING_THRESHOLD_KM) then WARNING
    else if user_mismatch (filter_valid l) userLocation then WARNING
    else PASS.
Proof.
  intro Hne. rewrite (verifyCoordinates_valid l userLocation Hne).
  unfold verify_valid, spread_of, user_mismatch.
  set (vc := filter_valid l). set (ctr := getCenter vc).
  set (s := div (max_distance ctr vc) (Num 1000)).
  cbn [clamp_score status].
  unfold check_user.
  assert (Hsp : status (apply_outliers (_detectOutliers vc ctr)
                          (check_spread s (initial_results ctr s)))
                = if gtb s (Num MAX_CLUSTER_SPREAD_KM) then FAIL
                  else if gtb s (Num WARNING_THRESHOLD_KM) then WARNING else PASS).
  { rewrite apply_outliers_status. unfold check_spread.
    destruct (gtb s (Num MAX_CLUSTER_SPREAD_KM)); [reflexivity | ].
    destruct (gtb s (Num WARNING_THRESHOLD_KM)); reflexivity. }
  destruct userLocation as [u | ]; [ | rewrite Hsp;
    destruct (gtb s (Num MAX_CLUSTER_SPREAD_KM));
      [ | destruct (gtb s (Num WARNING_THRESHOLD_KM)) ]; reflexivity ].
  destruct (truthy (lat u)); cbn [andb];
    [ | rewrite Hsp;
        destruct (gtb s (Num MAX_CLUSTER_SPREAD_KM));
          [ | destruct (gtb s (Num WARNING_THRESHOLD_KM)) ]; reflexivity ].
  destruct (gtb (getDistance ctr u) (Num (EXIF_USER_TOLERANCE_M * 5)));
    cbn [status]; rewrite Hsp;
    destruct (gtb s (Num MAX_CLUSTER_SPREAD_KM)); try reflexivity;
    destruct (gtb s (Num WARNING_THRESHOLD_KM)); reflexivity.
Qed.

(** *** How many outliers there can be *)

Lemma fold_add_NaN (l : list number) : fold_left add l NaN = NaN.
Proof. induction l as [ | x l IH]; [reflexivity | exact IH]. Qed.

Lemma fold_add_In_NaN (l : list number) (a : number) :
  In NaN l -> fold_left add l a = NaN.
Proof.
  revert a. induction l as [ | x l IH]; intros a Hin; [destruct Hin | ].
  destruct Hin as [-> | Hin]; cbn [fold_left].
  - destruct a; apply fold_add_NaN.
  - apply IH, Hin.
Qed.

Lemma fold_add_Num (qs : list Q) (a : Q) :
  fold_left add (map Num qs) (Num a) = Num (fold_left Qplus qs a).
Proof.
  revert a. induction qs as [ | q qs IH]; intro a; [reflexivity | ].
  cbn [map fold_left add]. apply IH.
Qed.

Lemma fold_Qplus_Qsum (qs : list Q) (a : Q) :
  fold_left Qplus qs a == a + Qsum qs.
Proof.
  revert a. induction qs as [ | q qs IH]; intro a; cbn [fold_left Qsum].
  - ring.
  - rewrite IH. ring.
Qed.

Lemma numbers_cases (l : list number) :
  In NaN l \/ exists qs, l = map Num qs.
Proof.
  induction l as [ | x l [IH | (qs & ->)]].
  - right. exists []. reflexivity.
  - left. right. exact IH.
  - destruct x as [ | q]; [left; left; reflexivity | ].
    right. exists (q :: qs). reflexivity.
Qed.

Lemma filter_none {A : Type} (f : A -> bool) (l : list A) :
  (forall x, In x l -> f x = false) -> List.filter f l = [].
Proof.
  induction l as [ | x l IH]; intro H; [reflexivity | ].
  cbn [List.filter]. rewrite (H x (or_introl eq_refl)).
  apply IH. intros y Hy. apply H. right. exact Hy.
Qed.

Lemma filter_map_length {A B : Type} (f : A -> B) (g : B -> bool) (l : list A) :
  length (List.filter (fun x => g (f x)) l) = length (List.filter g (map f l)).
Proof.
  induction l as [ | x l IH]; [reflexivity | ].
  cbn [List.filter map]. destruct (g (f x)); cbn [length]; rewrite IH; reflexivity.
Qed.

Lemma filter_Num_length (t : Q) (qs : list Q) :
  length (List.filter (fun d => gtb d (Num t)) (map Num qs))
  = length (List.filter (Qltb t) qs).
Proof.
  induction qs as [ | q qs IH]; [reflexivity | ].
  cbn [List.filter map]. change (gtb (Num q) (Num t)) with (Qltb t q).
  destruct (Qltb t q); cbn [length]; rewrite IH; reflexivity.
Qed.

Lemma Qsum_nonneg (qs : list Q) :
  Forall (fun q => 0 <= q) qs -> 0 <= Qsum qs.
Proof.
  induction 1 as [ | q qs Hq _ IH]; cbn [Qsum]; lra.
Qed.

(** The values above [t] alone already add up to more than their number
    times [t]. *)
Lemma count_above (t : Q) (qs : list Q) :
  Forall (fun q => 0 <= q) qs ->
  let k := length (List.filter (Qltb t) qs) in
  inject_Z (Z.of_nat k) * t <= Qsum qs /\
  ((0 < k)%nat -> inject_Z (Z.of_nat k) * t < Qsum qs).
Proof.
  induction 1 as [ | q qs Hq Hqs IH]; cbv zeta in *.
  - cbn [List.filter length Qsum]. change (inject_Z (Z.of_nat 0)) with 0.
    split; [lra | lia].
  - destruct IH as [IH1 IH2].
    pose proof (Qsum_nonneg qs Hqs) as Hs.
    cbn [List.filter Qsum]. destruct (Qltb t q) eqn:E.
    + apply Qltb_lt in E. cbn [length].
      rewrite Nat2Z.inj_succ, <- Z.add_1_r, inject_Z_plus.
      change (inject_Z 1) with 1.
      split; [ | intros _ ]; lra.
    + apply Qltb_ge in E.
      split; [lra | ]. intro Hk. specialize (IH2 Hk). lra.
Qed.

Lemma Qltb_comp (x x' y y' : Q) : x == x' -> y == y' -> Qltb x y = Qltb x' y'.
Proof.
  intros Hx Hy. unfold Qltb. f_equal.
  destruct (Qle_bool y x) eqn:E, (Qle_bool y' x') eqn:E'; try reflexivity.
  - apply Qle_bool_iff in E. rewrite Hx, Hy in E.
    apply Qle_bool_iff in E. congruence.
  - apply Qle_bool_iff in E'. rewrite <- Hx, <- Hy in E'.
    apply Qle_bool_iff in E'. congruence.
Qed.

(** When every distance is a number, [avgDist] is the average of the
    specification. *)
Lemma avgDist_average (coords : list point) (ctr : center_t) (ds : list Q) :
  coords <> [] ->
  distances_of coords ctr = map Num ds ->
  exists a, avgDist coords ctr = Num a /\ a == average_distance ds.
Proof.
  intros Hne Hds.
  assert (Hlen : length ds = length coords).
  { rewrite <- (length_map Num ds), <- Hds. unfold distances_of. apply length_map. }
  unfold avgDist. cbv zeta. rewrite Hds, fold_add_Num, length_map.
  unfold div.
  assert (Hn : Qeq_bool (inject_Z (Z.of_nat (length ds))) 0 = false).
  { apply not_true_iff_false. intro H. apply Qeq_bool_iff in H.
    destruct coords; [apply Hne; reflexivity | ]. cbn [length] in Hlen.
    rewrite Hlen in H. unfold Qeq in H. cbn [Qnum Qden inject_Z] in H. lia. }
  rewrite Hn. eexists. split; [reflexivity | ].
  unfold average_distance. rewrite fold_Qplus_Qsum. field.
  intro H. apply Qeq_bool_iff in H. congruence.
Qed.

(** C9: let the distances of the valid points to the centroid be the
    numbers [ds], and [avg] their average, the sum of [ds] over their
    number.  When [avg] is below 10 m no outlier is reported and the result
    is the one computed without any outlier step.  Otherwise the outliers
    are exactly the points whose distance exceeds three times [avg], as
    many as there are distances in [ds] above that bound; each of them
    takes 0.1 off the score, and one detail line carries their count. *)
Theorem outlier_detection_guard (l : list (option point)) (userLocation : option point)
        (ds : list Q) :
  filter_valid l <> [] ->
  let validCoords := filter_valid l in
  let ctr := getCenter validCoords in
  distances_of validCoords ctr = map Num ds ->
  let avg := average_distance ds in
  let spreadKm := div (max_distance ctr validCoords) (Num 1000) in
  let before := check_spread spreadKm (initial_results ctr spreadKm) in
  let flagged :=
    List.filter (fun c => gtb (getDistance ctr c) (Num (3 * avg))) validCoords in
  let k := length flagged in
  (avg < 10 ->
   _detectOutliers validCoords ctr = [] /\
   verifyCoordinates (Some l) userLocation =
     clamp_score (check_user ctr userLocation before)) /\
  (10 <= avg ->
   _detectOutliers validCoords ctr = flagged /\
   k = length (List.filter (fun d => Qltb (3 * avg) d) ds) /\
   exists after,
     verifyCoordinates (Some l) userLocation =
       clamp_score (check_user ctr userLocation after) /\
     status after = status before /\
     metrics after = metrics before /\
     score after == score before - inject_Z (Z.of_nat k) * 0.1 /\
     details after =
       details before ++ (if (0 <? k)%nat then [DetectedOutliers k] else [])).
Proof.
  intros Hne validCoords ctr Hds avg spreadKm before flagged k.
  rewrite (verifyCoordinates_valid l userLocation Hne).
  fold validCoords. unfold verify_valid.
  fold ctr. fold spreadKm. fold before.
  destruct (avgDist_average validCoords ctr ds Hne Hds) as (a & Ha & Haq).
  fold avg in Haq.
  split; intro Havg.
  - assert (E : _detectOutliers validCoords ctr = []).
    { unfold _detectOutliers. cbv zeta. rewrite Ha.
      change (ltb (Num a) (Num 10)) with (Qltb a 10).
      assert (Hlt : Qltb a 10 = true) by (apply Qltb_lt; rewrite Haq; exact Havg).
      rewrite Hlt. reflexivity. }
    split; [exact E | ]. rewrite E. reflexivity.
  - assert (E : _detectOutliers validCoords ctr = flagged).
    { unfold _detectOutliers. cbv zeta. rewrite Ha.
      change (ltb (Num a) (Num 10)) with (Qltb a 10).
      assert (Hge : Qltb a 10 = false) by (apply Qltb_ge; rewrite Haq; exact Havg).
      rewrite Hge.
      rewrite (filter_by_distance ctr (fun d => gtb d (mul (Num a) (Num 3)))).
      apply List.filter_ext. intro c.
      destruct (getDistance ctr c) as [ | d]; [reflexivity | ].
      change (Qltb (a * 3) d = Qltb (3 * avg) d).
      apply Qltb_comp; [rewrite Haq; ring | reflexivity]. }
    split; [exact E | ].
    split.
    { unfold k, flagged.
      rewrite (filter_map_length (getDistance ctr)
                 (fun d => gtb d (Num (3 * avg))) validCoords).
      change (map (getDistance ctr) validCoords) with (distances_of validCoords ctr).
      rewrite Hds. apply filter_Num_length. }
    rewrite E. fold k.
    exists (apply_outliers flagged before). split; [reflexivity | ].
    unfold apply_outliers. fold k.
    destruct (0 <? k)%nat eqn:Ek; simpl.
    + repeat split; reflexivity.
    + apply Nat.ltb_ge in Ek.
      assert (k = 0%nat) as -> by lia.
      repeat split; try reflexivity.
      * change (inject_Z (Z.of_nat 0)) with 0. ring.
      * symmetry. apply app_nil_r.
Qed.

(** X3: outliers are always a minority.  When no distance is negative,
    fewer than a third of the points can be flagged, so a list of three
    points or fewer never has an outlier. *)
Theorem outliers_fewer_than_a_third (coords : list point) (ctr : center_t) :
  (forall c d, In c coords -> getDistance ctr c = Num d -> 0 <= d) ->
  let k := length (_detectOutliers coords ctr) in
  (k = 0 \/ 3 * k < length coords)%nat /\
  ((length coords <= 3)%nat -> _detectOutliers coords ctr = []).
Proof.
  intros Hpos k.
  assert (Hk : (k = 0 \/ 3 * k < length coords)%nat).
  { subst k. unfold _detectOutliers.
    destruct (ltb (avgDist coords ctr) (Num 10)) eqn:Eavg; [left; reflexivity | ].
    rewrite (filter_by_distance ctr (fun d => gtb d (mul (avgDist coords ctr) (Num 3)))).
    rewrite (filter_map_length (getDistance ctr)
               (fun d => gtb d (mul (avgDist coords ctr) (Num 3)))).
    revert Eavg. unfold avgDist, distances_of.
    destruct (numbers_cases (map (getDistance ctr) coords)) as [Hnan | (qs & Hqs)].
    - rewrite (fold_add_In_NaN _ _ Hnan). cbn [div mul]. intros _. left.
      rewrite filter_none; [reflexivity | ].
      intros [ | d] _; reflexivity.
    - assert (Hnn : Forall (fun q => 0 <= q) qs).
      { apply List.Forall_forall. intros q Hq.
        assert (Hin : In (Num q) (map (getDistance ctr) coords))
          by (rewrite Hqs; apply in_map; exact Hq).
        apply in_map_iff in Hin. destruct Hin as (c & Hc & Hcin).
        exact (Hpos c q Hcin Hc). }
      assert (Hlen : length coords = length qs).
      { rewrite <- (length_map (getDistance ctr) coords), Hqs. apply length_map. }
      rewrite Hqs, fold_add_Num, length_map. cbn [div].
      set (n := inject_Z (Z.of_nat (length qs))).
      destruct (Qeq_bool n 0) eqn:En; [intros _; left | ].
      + cbn [mul]. rewrite filter_none; [reflexivity | ].
        intros [ | d] _; reflexivity.
      + cbn [ltb mul]. intro Eavg. apply Qltb_ge in Eavg.
        set (a := fold_left Qplus qs 0 / n) in *.
        rewrite filter_Num_length.
        destruct (count_above (a * 3) qs Hnn) as [_ Hstrict].
        set (k := length (List.filter (Qltb (a * 3)) qs)) in *.
        destruct k as [ | k']; [left; reflexivity | right].
        specialize (Hstrict ltac:(lia)).
        assert (Hn0 : ~ n == 0).
        { intro H0. apply Qeq_bool_iff in H0. congruence. }
        assert (Hnpos : 0 < n).
        { assert (0 <= n).
          { subst n. change 0 with (inject_Z 0). rewrite <- Zle_Qle. lia. }
          apply Qle_lteq in H. destruct H as [H | H]; [exact H | ].
          exfalso. apply Hn0. symmetry. exact H. }
        assert (Hsum : Qsum qs == a * n).
        { subst a. rewrite (fold_Qplus_Qsum qs 0). field. exact Hn0. }
        rewrite Hsum in Hstrict.
        set (K := inject_Z (Z.of_nat (S k'))) in *.
        assert (HK : K * 3 < n) by nra.
        subst K n. rewrite Hlen.
        change 3 with (inject_Z 3) in HK.
        rewrite <- inject_Z_mult, <- Zlt_Qlt in HK. lia. }
  split; [exact Hk | ].
  intro Hle. apply length_zero_iff_nil. fold k. lia.
Qed.

End Service.

(** Two clusters.  The tight one: four points at 5, 5, 5 and 7 m from
    their centre, average 5.5 m, one point 2 m farther than the others: no
    outlier.  The one with a far point: seven points at 100 m and one at
    700 m, average 175 m: the far point alone lies beyond 525 m, it takes
    0.1 off the score and is reported in one line. *)
Lemma outlier_detection_guard_witness :
  let tight := filter_valid tight_cluster in
  let far := filter_valid far_point_cluster in
  let ds := [100; 100; 100; 100; 100; 100; 100; 700] in
  (@distances_of planar tight (@getCenter planar tight) = map Num [5; 5; 5; 7] /\
   average_distance [5; 5; 5; 7] == 5.5 /\
   @_detectOutliers planar tight (@getCenter planar tight) = []) /\
  (@distances_of planar far (@getCenter planar far) = map Num ds /\
   average_distance ds == 175 /\
   @_detectOutliers planar far (@getCenter planar far)
     = [{| lat := VNum (Num 800); lon := VNum (Num 0) |}] /\
   length (List.filter (fun d => Qltb (3 * average_distance ds) d) ds) = 1%nat /\
   score (@verifyCoordinates planar (Some far_point_cluster) None) == 0.9 /\
   In (DetectedOutliers 1)
      (details (@verifyCoordinates planar (Some far_point_cluster) None))).
Proof.
  cbv zeta.
  assert (Hne : filter_valid tight_cluster <> []) by (vm_compute; discriminate).
  assert (Hne' : filter_valid far_point_cluster <> []) by (vm_compute; discriminate).
  assert (Hds : @distances_of planar (filter_valid tight_cluster)
                  (@getCenter planar (filter_valid tight_cluster))
                = map Num [5; 5; 5; 7]) by (vm_compute; reflexivity).
  assert (Hds' : @distances_of planar (filter_valid far_point_cluster)
                   (@getCenter planar (filter_valid far_point_cluster))
                 = map Num [100; 100; 100; 100; 100; 100; 100; 700])
    by (vm_compute; reflexivity).
  split.
  - split; [exact Hds | ]. split; [vm_compute; reflexivity | ].
    destruct (@outlier_detection_guard planar tight_cluster None
                [5; 5; 5; 7] Hne Hds) as [Hlow _].
    apply Hlow. vm_compute. reflexivity.
  - split; [exact Hds' | ]. split; [vm_compute; reflexivity | ].
    destruct (@outlier_detection_guard planar far_point_cluster None
                [100; 100; 100; 100; 100; 100; 100; 700] Hne' Hds') as [_ Hhigh].
    destruct Hhigh as (E & Hk & _).
    { vm_compute. discriminate. }
    split; [rewrite E; vm_compute; reflexivity | ].
    split; [rewrite <- Hk; vm_compute; reflexivity | ].
    split.
    + vm_compute. reflexivity.
    + vm_compute. right. left. reflexivity.
Defined.

(** A user location on the equator (latitude exactly 0), 900 m away along
    the other axis: ignored. *)
Lemma falsy_user_latitude_skipped_witness :
  let u := {| lat := VNum (Num 0); lon := VNum (Num 900) |} in
  truthy (lat u) = false /\
  @verifyCoordinates planar (Some tight_cluster) (Some u)
    = @verifyCoordinates planar (Some tight_cluster) None.
Proof.
  cbv zeta. split; [reflexivity | ].
  apply (@falsy_user_latitude_skipped planar (Some tight_cluster)
           {| lat := VNum (Num 0); lon := VNum (Num 900) |}).
  reflexivity.
Defined.

(** The user stands 900 m from the tight cluster: WARNING, through the
    user-location step alone. *)
Lemma status_from_spread_and_user_witness :
  let u := {| lat := VNum (Num 900); lon := VNum (Num 0) |} in
  filter_valid tight_cluster <> [] /\
  @status (@verifyCoordinates planar (Some tight_cluster) (Some u)) = WARNING /\
  @status (@verifyCoordinates planar (Some tight_cluster) None) = PASS.
Proof.
  cbv zeta.
  assert (Hne : filter_valid tight_cluster <> []) by (vm_compute; discriminate).
  split; [exact Hne | ]. split.
  - rewrite (@status_from_spread_and_user planar tight_cluster
               (Some {| lat := VNum (Num 900); lon := VNum (Num 0) |}) Hne).
    vm_compute. reflexivity.
  - rewrite (@status_from_spread_and_user planar tight_cluster None Hne).
    vm_compute. reflexivity.
Defined.

Lemma abs_nonneg (n : number) (d : Q) : abs n = Num d -> 0 <= d.
Proof.
  destruct n as [ | x]; [discriminate | ].
  intro H. injection H as H. rewrite <- H, Qred_correct. apply Qabs_nonneg.
Qed.

Lemma planar_distance_nonneg (ctr : center_t) (c : point) (d : Q) :
  planar_getDistance ctr c = Num d -> 0 <= d.
Proof.
  unfold planar_getDistance.
  destruct (abs (sub (ToNumber (lat c)) (latitude ctr))) as [ | a] eqn:Ea;
    [discriminate | ].
  destruct (abs (sub (ToNumber (lon c)) (longitude ctr))) as [ | b] eqn:Eb;
    [discriminate | ].
  intro H. injection H as <-.
  pose proof (abs_nonneg _ _ Ea). pose proof (abs_nonneg _ _ Eb). lra.
Qed.

(** Eight points, one of them far away: one outlier, and 3 * 1 < 8. *)
Lemma outliers_fewer_than_a_third_witness :
  let coords := filter_valid far_point_cluster in
  let k := length (@_detectOutliers planar coords (@getCenter planar coords)) in
  k = 1%nat /\ (k = 0 \/ 3 * k < length coords)%nat.
Proof.
  cbv zeta. split; [vm_compute; reflexivity | ].
  apply (@outliers_fewer_than_a_third planar (filter_valid far_point_cluster)
           (@getCenter planar (filter_valid far_point_cluster))).
  intros c d _ H. exact (planar_distance_nonneg _ c d H).
Defined.

End GeolocationSpec.

Module WeatherSpec.
Import Js JsFacts Weather.

(** *** Properties of the scoring code *)

Lemma resolve_score_range (v : locals) :
  0.1 <= l_score (resolve v) <= 0.99.
Proof. unfold resolve; simpl. apply clamp_bounds. lra. Qed.

Lemma correlate_score_range (weather : weather_t) (damageType : string) (r : result) :
  correlate weather damageType = inr r -> 0.1 <= score r <= 0.99.
Proof.
  unfold correlate. destruct (correlation_of damageType) as [c | ]; [ | discriminate].
  intros [= <-]. cbv zeta. cbn [score]. apply resolve_score_range.
Qed.

(** C3, as the code has it: the score returned by the weather
    verification always lies in the closed interval [0.1, 0.99]; both end
    points are reached. *)
Theorem weather_score_closed_range (svc : service) (e : env) (lat lon : number)
        (damageType : string) (claimTimestamp : Z) :
  0.1 <= score (returned (verifyWeatherDamageCorrelation
                            svc e lat lon damageType claimTimestamp)) <= 0.99.
Proof.
  unfold verifyWeatherDamageCorrelation; cbn [returned].
  destruct (correlate (returned (getCurrentWeather svc e lat lon)) damageType)
    as [err | r] eqn:E.
  - cbn [score]. lra.
  - exact (correlate_score_range _ _ _ E).
Qed.

(** C3 as stated fails: for a drought claim at (0.5, 1) without a
    provider key the mock weather is dry and the score is exactly 0.99;
    for a drought claim under cold rain it is exactly 0.1. *)
Lemma weather_score_attains_bounds :
  score (returned (verifyWeatherDamageCorrelation
                     no_key_service (offline 0) (Num 0.5) (Num 1) "DR" 0)) == 0.99 /\
  score (returned (verifyWeatherDamageCorrelation
                     keyed_service (cold_rain 0) (Num 0.5) (Num 1) "DR" 0)) == 0.1.
Proof. split; vm_compute; reflexivity. Qed.

(** The rules returned by the lookup are the five entries. *)
Lemma correlation_of_cases (damageType : string) (r : rule) :
  correlation_of damageType = Some r ->
  r = DR_rule \/ r = ND_rule \/ r = WD_rule \/ r = G_rule \/ r = other_rule.
Proof.
  unfold correlation_of, DAMAGE_WEATHER_CORRELATION, own_property.
  repeat match goal with
         | |- context [String.eqb damageType ?k] => destruct (String.eqb damageType k)
         end;
    try (intros [= <-]; tauto).
  destruct (includes object_prototype_names damageType);
    [discriminate | intros [= <-]; tauto].
Qed.

Lemma correlation_of_DR : correlation_of "DR" = Some DR_rule.
Proof. reflexivity. Qed.

Lemma includes_cons (x k : string) (l : list string) :
  includes (k :: l) x = String.eqb x k || includes l x.
Proof. reflexivity. Qed.

(** No entry lists a condition both as supporting and as contradicting. *)
Lemma contradicting_not_supporting (damageType : string) (r : rule) (c : string) :
  correlation_of damageType = Some r ->
  includes (contradicting r) c = true ->
  includes (supporting r) c = false.
Proof.
  intros Hr Hc.
  destruct (correlation_of_cases _ _ Hr) as [-> | [-> | [-> | [-> | ->]]]];
    cbn [contradicting supporting DR_rule ND_rule WD_rule G_rule other_rule] in *;
    repeat rewrite includes_cons in Hc; cbn [includes existsb] in Hc;
    repeat (apply orb_true_iff in Hc; destruct Hc as [Hc | Hc]);
    try discriminate;
    apply String.eqb_eq in Hc; subst c; reflexivity.
Qed.

Lemma humid_not_dry (n : number) :
  gtb n (Num 80) = true -> ltb n (Num 40) = false.
Proof.
  destruct n as [ | q]; [discriminate | ]. unfold gtb, ltb.
  intro H. apply Qltb_lt in H. apply Qltb_ge. lra.
Qed.

Lemma resolve_keeps_mismatch (v : locals) :
  l_status v = MISMATCH -> l_score v <= 0.7 -> l_status (resolve v) = MISMATCH.
Proof.
  intros Hs Hle. unfold resolve; cbn [l_status].
  destruct (Qltb (clamp 0.1 0.99 (l_score v)) 0.3); [reflexivity | ].
  destruct (Qltb 0.7 (clamp 0.1 0.99 (l_score v))) eqn:E; [ | exact Hs].
  exfalso. apply Qltb_lt in E. unfold clamp in E.
  assert (H : Qmax 0.1 (Qmin 0.99 (l_score v)) <= 0.7).
  { apply Q.max_lub; [lra | ].
    eapply Qle_trans; [apply Q.le_min_r | exact Hle]. }
  lra.
Qed.

Lemma check_temperature_effect (c : rule) (w : weather_t) (v : locals) :
  l_status (check_temperature c w v) = l_status v /\
  l_score (check_temperature c w v) <= l_score v + 0.2.
Proof.
  unfold check_temperature.
  destruct (gtb _ _); [ | destruct (ltb _ _) ]; cbn [l_status l_score];
    split; try reflexivity; lra.
Qed.

Lemma check_humidity_effect (c : rule) (w : weather_t) (v : locals) :
  (l_status (check_humidity c w v) = l_status v \/
   l_status (check_humidity c w v) = MISMATCH) /\
  l_score (check_humidity c w v) <= l_score v + 0.1.
Proof.
  unfold check_humidity.
  destruct (ltb _ _); [ | destruct (gtb _ _) ]; cbn [l_status l_score];
    split; try (left; reflexivity); try (right; reflexivity); lra.
Qed.

Lemma check_humidity_forced (w : weather_t) (v : locals) :
  gtb (ToNumber (humidity w)) (Num 80) = true ->
  l_status (check_humidity DR_rule w v) = MISMATCH /\
  l_score (check_humidity DR_rule w v) == l_score v - 0.3.
Proof.
  intro H. unfold check_humidity. cbn [maxHumidity DR_rule ToNumber].
  rewrite (humid_not_dry _ H), H. cbn [l_status l_score]. split; reflexivity.
Qed.

Lemma check_condition_effect (c : rule) (w : weather_t) (dt : string) (v : locals) :
  l_score (check_condition c w dt v) <= l_score v + 0.3.
Proof.
  unfold check_condition.
  destruct (includes (supporting c) _); [ | destruct (includes (contradicting c) _) ];
    cbn [l_score]; lra.
Qed.

Lemma check_condition_forced (c : rule) (w : weather_t) (dt : string) (v : locals) :
  includes (supporting c) (condition w) = false ->
  includes (contradicting c) (condition w) = true ->
  l_status (check_condition c w dt v) = MISMATCH /\
  l_score (check_condition c w dt v) == l_score v - 0.4.
Proof.
  intros H1 H2. unfold check_condition. rewrite H1, H2.
  cbn [l_status l_score]. split; reflexivity.
Qed.

Lemma correlate_forced_mismatch (weather : weather_t) (damageType : string) :
  forced_mismatch weather damageType ->
  exists r, correlate weather damageType = inr r /\ status r = MISMATCH.
Proof.
  intros [(c & Hc & Hin) | (-> & Hhum)].
  - pose proof (contradicting_not_supporting _ _ _ Hc Hin) as Hns.
    unfold correlate. rewrite Hc. cbv zeta.
    eexists; split; [reflexivity | ]. cbn [status].
    set (v0 := {| l_score := 0.5; l_status := NEUTRAL; l_details := [] |}).
    destruct (check_condition_forced c weather damageType v0 Hns Hin) as [Hs Hq].
    destruct (String.eqb damageType "DR").
    + destruct (check_temperature_effect c weather
                  (check_condition c weather damageType v0)) as [Hts Htq].
      destruct (check_humidity_effect c weather
                  (check_temperature c weather
                     (check_condition c weather damageType v0))) as [Hhs Hhq].
      apply resolve_keeps_mismatch.
      * destruct Hhs as [Hhs | Hhs]; [ | exact Hhs].
        rewrite Hhs, Hts. exact Hs.
      * rewrite Hq in Htq. change (l_score v0) with 0.5 in Htq. lra.
    + apply resolve_keeps_mismatch; [exact Hs | ].
      rewrite Hq. change (l_score v0) with 0.5. lra.
  - unfold correlate. rewrite correlation_of_DR. cbv zeta.
    eexists; split; [reflexivity | ]. cbn [status].
    change (String.eqb "DR" "DR") with true. cbv iota.
    set (v0 := {| l_score := 0.5; l_status := NEUTRAL; l_details := [] |}).
    set (v1 := check_condition DR_rule weather "DR" v0).
    set (v2 := check_temperature DR_rule weather v1).
    destruct (check_humidity_forced weather v2 Hhum) as [Hs Hq].
    pose proof (check_condition_effect DR_rule weather "DR" v0) as H1.
    destruct (check_temperature_effect DR_rule weather v1) as [_ H2].
    fold v1 in H1. fold v2 in H2. change (l_score v0) with 0.5 in H1.
    apply resolve_keeps_mismatch; [exact Hs | ]. rewrite Hq. lra.
Qed.

(** C4: whenever a MISMATCH is forced (the observed condition contradicts
    the rule, or a drought claim meets humidity above 80) the returned
    status is MISMATCH, whatever the other adjustments; in particular for
    a drought claim under rain with humidity 90. *)
Theorem forced_mismatch_kept (svc : service) (e : env) (lat lon : number)
        (damageType : string) (claimTimestamp : Z) :
  forced_mismatch (returned (getCurrentWeather svc e lat lon)) damageType ->
  status (returned (verifyWeatherDamageCorrelation
                      svc e lat lon damageType claimTimestamp)) = MISMATCH.
Proof.
  intro H. unfold verifyWeatherDamageCorrelation; cbn [returned].
  destruct (correlate_forced_mismatch _ _ H) as (r & -> & Hr). exact Hr.
Qed.

(** A drought claim under rain with humidity 90. *)
Lemma forced_mismatch_kept_witness :
  condition (returned (getCurrentWeather keyed_service (cold_rain 0) (Num 28.61) (Num 77.2)))
    = "Rain" /\
  humidity (returned (getCurrentWeather keyed_service (cold_rain 0) (Num 28.61) (Num 77.2)))
    = VNum (Num 90) /\
  status (returned (verifyWeatherDamageCorrelation
                      keyed_service (cold_rain 0) (Num 28.61) (Num 77.2) "DR" 0))
    = MISMATCH.
Proof.
  split; [reflexivity | ]. split; [reflexivity | ].
  apply (forced_mismatch_kept keyed_service (cold_rain 0) (Num 28.61) (Num 77.2) "DR" 0).
  right. split; reflexivity.
Defined.

(** A code that is neither an entry of the table nor a name inherited
    from [Object.prototype] is scored with the [other] rule: NEUTRAL, 0.5,
    no detail. *)
Lemma unknown_code_neutral (svc : service) (e : env) (lat lon : number)
      (damageType : string) (claimTimestamp : Z) :
  DAMAGE_WEATHER_CORRELATION damageType = Absent ->
  let r := returned (verifyWeatherDamageCorrelation
                       svc e lat lon damageType claimTimestamp) in
  status r = NEUTRAL /\ score r == 0.5 /\ error r = None.
Proof.
  intro H. cbv zeta. unfold verifyWeatherDamageCorrelation; cbn [returned].
  unfold correlate, correlation_of. rewrite H. cbv zeta.
  assert (E : String.eqb damageType "DR" = false).
  { revert H. unfold DAMAGE_WEATHER_CORRELATION, own_property.
    destruct (String.eqb damageType "DR"); [discriminate | reflexivity]. }
  rewrite E. cbn. repeat split.
Qed.

(** C6 at the code ["constructor"], which has no entry in the table: the
    lookup finds the inherited [Object.prototype.constructor], the default
    rule is not used, the scoring raises, and the result is the one of the
    [catch] block: UNKNOWN, not NEUTRAL. *)
Theorem inherited_name_unknown (svc : service) (e : env) (lat lon : number)
        (claimTimestamp : Z) :
  let r := returned (verifyWeatherDamageCorrelation
                       svc e lat lon "constructor" claimTimestamp) in
  own_property "constructor" = None /\
  correlate (returned (getCurrentWeather svc e lat lon)) "constructor" = inl TypeError /\
  status r = UNKNOWN /\ score r = 0.5 /\ error r = Some TypeError.
Proof. cbv zeta. repeat split. Qed.

(** *** Properties of the cache *)


(** A call that does not store leaves the service as it was; the only
    store is the one after a successful request. *)
Lemma getCurrentWeather_after (svc : service) (e : env) (lat lon : number) :
  let o := getCurrentWeather svc e lat lon in
  (requests o = 0%nat /\ after o = svc) \/
  (requests o = 1%nat /\ response e = None /\ after o = svc /\
   returned o = _getMockWeatherData e lat lon) \/
  (requests o = 1%nat /\ response e <> None /\
   after o = {| apiKey := apiKey svc;
                cache := <[cacheKey lat lon :=
                             {| data := returned o; stored_at := now_store e |}]>
                           (cache svc) |}).
Proof.
  cbv zeta. unfold getCurrentWeather.
  destruct (cached svc e (cacheKey lat lon)); [left; split; reflexivity | ].
  destruct (key_not_configured svc); [left; split; reflexivity | ].
  destruct (response e) as [resp | ]; right.
  - right. cbn. repeat split. discriminate.
  - left. cbn. repeat split.
Qed.




(** *** Status and score of the weather verdict *)

Lemma check_condition_status (c : rule) (w : weather_t) (dt : string) (v : locals) :
  l_status v = NEUTRAL \/ l_status v = MISMATCH ->
  l_status (check_condition c w dt v) = NEUTRAL \/
  l_status (check_condition c w dt v) = MISMATCH.
Proof.
  intro H. unfold check_condition.
  destruct (includes (supporting c) _); [exact H | ].
  destruct (includes (contradicting c) _); [right; reflexivity | exact H].
Qed.

Lemma resolve_status (v : locals) :
  l_status v = NEUTRAL \/ l_status v = MISMATCH ->
  (l_status (resolve v) = MATCH -> 0.7 < l_score (resolve v)) /\
  (l_status (resolve v) = NEUTRAL -> 0.3 <= l_score (resolve v) <= 0.7) /\
  (l_score (resolve v) < 0.3 -> l_status (resolve v) = MISMATCH) /\
  l_status (resolve v) <> UNKNOWN.
Proof.
  intro H. unfold resolve; cbn [l_status l_score].
  set (s := clamp 0.1 0.99 (l_score v)).
  destruct (Qltb s 0.3) eqn:E3.
  - apply Qltb_lt in E3.
    repeat split; try discriminate; try reflexivity.
  - apply Qltb_ge in E3.
    destruct (Qltb 0.7 s) eqn:E7.
    + apply Qltb_lt in E7.
      repeat split; try discriminate; try (intros; lra).
    + apply Qltb_ge in E7.
      destruct H as [-> | ->];
        repeat split; try discriminate; try (intros; lra).
Qed.

(** X4: status and score of the weather verdict agree.  MATCH is only
    returned with a score above 0.7, NEUTRAL only with a score in
    [0.3, 0.7], a score below 0.3 always comes with MISMATCH, and UNKNOWN is
    the result of the [catch] block: score 0.5, an error and no weather
    context. *)
Theorem weather_status_matches_score (svc : service) (e : env) (lat lon : number)
        (damageType : string) (claimTimestamp : Z) :
  let r := returned (verifyWeatherDamageCorrelation
                       svc e lat lon damageType claimTimestamp) in
  (status r = MATCH -> 0.7 < score r) /\
  (status r = NEUTRAL -> 0.3 <= score r <= 0.7) /\
  (score r < 0.3 -> status r = MISMATCH) /\
  (status r = UNKNOWN -> score r == 0.5 /\ error r = Some TypeError /\
                         weather_context r = None) /\
  (status r <> UNKNOWN ->
   error r = None /\
   weather_context r = Some (returned (getCurrentWeather svc e lat lon))).
Proof.
  cbv zeta. unfold verifyWeatherDamageCorrelation; cbn [returned].
  set (w := returned (getCurrentWeather svc e lat lon)).
  unfold correlate.
  destruct (correlation_of damageType) as [c | ].
  - cbv zeta. cbn [status score error weather_context].
    set (v0 := {| l_score := 0.5; l_status := NEUTRAL; l_details := [] |}).
    set (v := if String.eqb damageType "DR"
              then check_humidity c w (check_temperature c w (check_condition c w damageType v0))
              else check_condition c w damageType v0).
    assert (Hv : l_status v = NEUTRAL \/ l_status v = MISMATCH).
    { pose proof (check_condition_status c w damageType v0 (or_introl eq_refl)) as H1.
      subst v. destruct (String.eqb damageType "DR"); [ | exact H1].
      destruct (check_humidity_effect c w
                  (check_temperature c w (check_condition c w damageType v0)))
        as [[Hh | Hh] _]; [ | right; exact Hh].
      rewrite Hh.
      destruct (check_temperature_effect c w (check_condition c w damageType v0))
        as [Ht _].
      rewrite Ht. exact H1. }
    destruct (resolve_status v Hv) as (H1 & H2 & H3 & H4).
    repeat split; try assumption; try (intro; contradiction);
      try (apply H2; assumption); try reflexivity.
    all: exfalso; apply H4; assumption.
  - cbn [status score error weather_context].
    repeat split; try discriminate; try reflexivity; try (intros; lra).
    all: congruence.
Qed.

(** X5: for every damage type other than drought the verdict depends on the
    observed condition only, never on temperature or humidity: a supporting
    condition gives MATCH with 0.8, a contradicting one MISMATCH with 0.1,
    any other NEUTRAL with 0.5. *)
Theorem non_drought_verdict (svc : service) (e : env) (lat lon : number)
        (damageType : string) (claimTimestamp : Z) (c : rule) :
  damageType <> "DR" ->
  correlation_of damageType = Some c ->
  let w := returned (getCurrentWeather svc e lat lon) in
  let r := returned (verifyWeatherDamageCorrelation
                       svc e lat lon damageType claimTimestamp) in
  (includes (supporting c) (condition w) = true ->
   status r = MATCH /\ score r == 0.8) /\
  (includes (supporting c) (condition w) = false ->
   includes (contradicting c) (condition w) = true ->
   status r = MISMATCH /\ score r == 0.1) /\
  (includes (supporting c) (condition w) = false ->
   includes (contradicting c) (condition w) = false ->
   status r = NEUTRAL /\ score r == 0.5 /\ details r = []).
Proof.
  intros Hdt Hc. cbv zeta.
  unfold verifyWeatherDamageCorrelation; cbn [returned].
  unfold correlate. rewrite Hc. cbv zeta.
  assert (E : String.eqb damageType "DR" = false) by (apply String.eqb_neq; exact Hdt).
  rewrite E. cbn [status score details]. unfold check_condition.
  repeat split.
  1,2: rewrite H; vm_compute; reflexivity.
  1,2: rewrite H, H0; vm_compute; reflexivity.
  all: rewrite H, H0; vm_compute; reflexivity.
Qed.

(** A witness for [non_drought_verdict]: weed damage under rain. *)
Lemma non_drought_verdict_witness :
  let r := returned (verifyWeatherDamageCorrelation
                       keyed_service (cold_rain 0) (Num 28.61) (Num 77.2) "WD" 0) in
  status r = MATCH /\ score r == 0.8.
Proof.
  cbv zeta.
  apply (non_drought_verdict keyed_service (cold_rain 0) (Num 28.61) (Num 77.2)
           "WD" 0 WD_rule).
  - discriminate.
  - reflexivity.
  - reflexivity.
Defined.

(** *** More on the cache *)

(** X6: an entry is served while it is younger than one hour, and only
    then.  With an entry for the cell, a lookup less than 3 600 000 ms
    after its store returns the entry's data, sends no request and leaves
    the service alone; from 3 600 000 ms on the entry is ignored, and with
    a key configured exactly one request is sent, whose answer replaces the
    entry. *)
Theorem cache_entry_served_while_fresh (svc : service) (e : env) (lat lon : number)
        (entry : cache_entry) :
  cache svc !! cacheKey lat lon = Some entry ->
  let o := getCurrentWeather svc e lat lon in
  ((now_check e - stored_at entry < CACHE_TTL)%Z ->
   returned o = data entry /\ requests o = 0%nat /\ after o = svc) /\
  ((CACHE_TTL <= now_check e - stored_at entry)%Z ->
   key_not_configured svc = false ->
   requests o = 1%nat /\
   (response e <> None ->
    isMock (returned o) = false /\
    cache (after o) !! cacheKey lat lon
      = Some {| data := returned o; stored_at := now_store e |})).
Proof.
  intros Hentry o. subst o. unfold getCurrentWeather, cached. rewrite Hentry.
  split.
  - intro H. apply Z.ltb_lt in H. rewrite H. repeat split.
  - intros H Hkey. apply Z.ltb_ge in H. rewrite H, Hkey.
    destruct (response e) as [resp | ]; cbn [returned requests after isMock cache].
    + split; [reflexivity | ]. intros _. split; [reflexivity | ].
      apply lookup_insert_eq.
    + split; [reflexivity | ]. intro Hn. exfalso. apply Hn. reflexivity.
Qed.

(** The entry of [warm_service] is exactly one hour old: it is not
    served. *)
Lemma cache_entry_served_while_fresh_witness :
  let o := getCurrentWeather warm_service (clear_sky 3600000) (Num 28.61) (Num 77.21) in
  requests o = 1%nat /\ condition (returned o) = "Clear".
Proof.
  cbv zeta.
  destruct (cache_entry_served_while_fresh warm_service (clear_sky 3600000)
              (Num 28.61) (Num 77.21)
              {| data := {| temp := VNum (Num 20); humidity := VNum (Num 50);
                            condition := "Clouds"; description := "few clouds";
                            windSpeed := VNum (Num 1); timestamp := 0;
                            isMock := false |};
                 stored_at := 0 |} eq_refl) as [_ Hstale].
  split; [ | reflexivity].
  apply Hstale; [vm_compute; discriminate | reflexivity].
Defined.

(** X7: a lookup never removes or alters what the cache holds for other
    cells, never removes an entry (a stale one stays until it is
    overwritten), and never changes the key. *)
Theorem cache_never_evicts (svc : service) (e : env) (lat lon : number) :
  let o := getCurrentWeather svc e lat lon in
  apiKey (after o) = apiKey svc /\
  (forall k, k <> cacheKey lat lon -> cache (after o) !! k = cache svc !! k) /\
  (forall k, is_Some (cache svc !! k) -> is_Some (cache (after o) !! k)).
Proof.
  cbv zeta.
  destruct (getCurrentWeather_after svc e lat lon)
    as [[_ ->] | [(_ & _ & -> & _) | (_ & _ & ->)]].
  - split; [reflexivity | ]. split; [reflexivity | ]. intros k Hk. exact Hk.
  - split; [reflexivity | ]. split; [reflexivity | ]. intros k Hk. exact Hk.
  - cbn [apiKey cache]. split; [reflexivity | ]. split.
    + intros k Hk. apply lookup_insert_ne. congruence.
    + intros k Hk. destruct (decide (cacheKey lat lon = k)) as [Heq | Hne].
      * rewrite Heq, lookup_insert_eq. eexists. reflexivity.
      * rewrite lookup_insert_ne; assumption.
Qed.

Lemma no_mock_cached_step (svc : service) (e : env) (lat lon : number) :
  no_mock_cached svc -> no_mock_cached (after (getCurrentWeather svc e lat lon)).
Proof.
  intro H. unfold getCurrentWeather.
  destruct (cached svc e (cacheKey lat lon)); [exact H | ].
  destruct (key_not_configured svc); [exact H | ].
  destruct (response e) as [resp | ]; [ | exact H].
  cbn [after]. intros k entry. cbn [cache].
  destruct (decide (cacheKey lat lon = k)) as [<- | Hne].
  - rewrite lookup_insert_eq. intros [= <-]. reflexivity.
  - rewrite lookup_insert_ne by assumption. apply H.
Qed.

Lemma no_mock_cached_run (svc : service) (ls : list lookup) :
  no_mock_cached svc -> no_mock_cached (run svc ls).
Proof.
  revert svc. induction ls as [ | l ls IH]; intros svc H; [exact H | ].
  cbn [run]. apply IH, no_mock_cached_step, H.
Qed.

(** X8: the cache never holds mock data.  Starting from the empty cache of
    a new service, after any sequence of lookups every cached snapshot came
    from the provider, so a cache hit never returns a mock snapshot. *)
Theorem cache_never_holds_mock (key : option string) (ls : list lookup)
        (e : env) (lat lon : number) :
  no_mock_cached (run (new_service key) ls) /\
  match cached (run (new_service key) ls) e (cacheKey lat lon) with
  | Some d => isMock d = false
  | None => True
  end.
Proof.
  assert (H : no_mock_cached (run (new_service key) ls)).
  { apply no_mock_cached_run. intros k entry. cbn [new_service cache].
    rewrite lookup_empty. discriminate. }
  split; [exact H | ].
  unfold cached.
  destruct (cache (run (new_service key) ls) !! cacheKey lat lon) as [entry | ] eqn:E;
    [ | exact I].
  destruct (now_check e - stored_at entry <? CACHE_TTL)%Z; [ | exact I].
  exact (H _ _ E).
Qed.

(** X9: without a configured key (absent, empty or the placeholder) the
    provider is never contacted and the cache never changes, whatever the
    sequence of lookups. *)
Theorem no_key_no_requests (svc : service) (ls : list lookup) :
  key_not_configured svc = true ->
  run svc ls = svc /\ run_requests svc ls = 0%nat.
Proof.
  intro Hkey. induction ls as [ | l ls [IH1 IH2]]; [split; reflexivity | ].
  cbn [run run_requests].
  assert (E : getCurrentWeather svc (lk_env l) (lk_lat l) (lk_lon l)
              = {| returned := returned (getCurrentWeather svc (lk_env l) (lk_lat l) (lk_lon l));
                   after := svc; requests := 0 |}).
  { unfold getCurrentWeather.
    destruct (cached svc (lk_env l) (cacheKey (lk_lat l) (lk_lon l))); [reflexivity | ].
    rewrite Hkey. reflexivity. }
  rewrite E. cbn [after requests]. split; [exact IH1 | exact IH2].
Qed.

Lemma no_key_no_requests_witness :
  let ls := [ {| lk_env := clear_sky 0; lk_lat := Num 28.61; lk_lon := Num 77.21 |};
              {| lk_env := cold_rain 5000; lk_lat := Num 19.07; lk_lon := Num 72.87 |} ] in
  let svc := {| apiKey := Some "your_openweathermap_api_key_here"; cache := ∅ |} in
  run svc ls = svc /\ run_requests svc ls = 0%nat.
Proof.
  cbv zeta.
  apply (no_key_no_requests
           {| apiKey := Some "your_openweathermap_api_key_here"; cache := ∅ |}).
  reflexivity.
Defined.

(** X10: without a key, the verdict on a drought claim is decided by the
    parity test of the mock alone.  When no fresh cache entry exists, a
    drought claim gets MATCH with 0.99 if [(lat + lon) % 2 > 1] and
    MISMATCH with 0.1 otherwise. *)
Theorem drought_verdict_on_mock (svc : service) (e : env) (lat lon : number)
        (claimTimestamp : Z) :
  key_not_configured svc = true ->
  cached svc e (cacheKey lat lon) = None ->
  let r := returned (verifyWeatherDamageCorrelation svc e lat lon "DR" claimTimestamp) in
  status r = (if is_dry lat lon then MATCH else MISMATCH) /\
  score r == (if is_dry lat lon then 0.99 else 0.1).
Proof.
  intros Hkey Hc. cbv zeta.
  unfold verifyWeatherDamageCorrelation, getCurrentWeather.
  rewrite Hc, Hkey. cbn [returned].
  unfold _getMockWeatherData. fold (is_dry lat lon).
  destruct (is_dry lat lon); vm_compute; split; reflexivity.
Qed.

Lemma drought_verdict_on_mock_witness :
  is_dry (Num 0.5) (Num 1) = true /\
  is_dry (Num 28) (Num 77) = false /\
  status (returned (verifyWeatherDamageCorrelation
                      no_key_service (offline 0) (Num 0.5) (Num 1) "DR" 0)) = MATCH /\
  status (returned (verifyWeatherDamageCorrelation
                      no_key_service (offline 0) (Num 28) (Num 77) "DR" 0)) = MISMATCH.
Proof.
  split; [reflexivity | ]. split; [reflexivity | ]. split.
  - apply (drought_verdict_on_mock no_key_service (offline 0) (Num 0.5) (Num 1) 0);
      reflexivity.
  - apply (drought_verdict_on_mock no_key_service (offline 0) (Num 28) (Num 77) 0);
      reflexivity.
Defined.

Lemma Qfloor_small (y : Q) : 0 <= y -> y < 1 -> Qfloor y = 0%Z.
Proof.
  intros H0 H1.
  pose proof (Qfloor_le y) as Hle. pose proof (Qlt_floor y) as Hlt.
  assert (Ha : (Qfloor y < 1)%Z).
  { rewrite Zlt_Qlt. change (inject_Z 1) with 1. lra. }
  assert (Hb : (-1 < Qfloor y)%Z).
  { rewrite Zlt_Qlt. rewrite inject_Z_plus in Hlt.
    change (inject_Z 1) with 1 in Hlt. change (inject_Z (-1)) with (-1). lra. }
  lia.
Qed.

(** X11: the cells along the equator and the prime meridian are split by
    sign.  A coordinate in (-0.005, 0) is formatted "-0.00" while its
    mirror image is formatted "0.00", so the two, although both round to
    0.00, never share a cache entry. *)
Theorem negative_zero_cell (x : Q) (other : number) :
  - (1 # 200) < x -> x < 0 ->
  toFixed2 (Num x) = "-0.00" /\
  toFixed2 (Num (- x)) = "0.00" /\
  cacheKey (Num x) other <> cacheKey (Num (- x)) other /\
  cacheKey other (Num x) <> cacheKey other (Num (- x)).
Proof.
  intros Hlo Hhi.
  assert (Hneg : Qltb x 0 = true) by (apply Qltb_lt; exact Hhi).
  assert (Hpos : Qltb (- x) 0 = false) by (apply Qltb_ge; lra).
  assert (Habs : Qabs x == - x) by (apply Qabs_neg; lra).
  assert (Habs' : Qabs (- x) == - x) by (apply Qabs_pos; lra).
  assert (F1 : Qfloor (Qabs x * 100 + (1 # 2)) = 0%Z).
  { apply Qfloor_small; rewrite Habs; lra. }
  assert (F2 : Qfloor (Qabs (- x) * 100 + (1 # 2)) = 0%Z).
  { apply Qfloor_small; rewrite Habs'; lra. }
  assert (T1 : toFixed2 (Num x) = "-0.00").
  { unfold toFixed2. rewrite F1, Hneg. reflexivity. }
  assert (T2 : toFixed2 (Num (- x)) = "0.00").
  { unfold toFixed2. rewrite F2, Hpos. reflexivity. }
  split; [exact T1 | ]. split; [exact T2 | ].
  unfold cacheKey. rewrite T1, T2. split.
  - cbn. discriminate.
  - intro H. apply (inj (String.app (toFixed2 other))) in H. discriminate H.
Qed.

Lemma negative_zero_cell_witness :
  cacheKey (Num (-0.001)) (Num 77.21) = "-0.00,77.21" /\
  cacheKey (Num 0.001) (Num 77.21) = "0.00,77.21" /\
  cacheKey (Num (-0.001)) (Num 77.21) <> cacheKey (Num (- -0.001)) (Num 77.21).
Proof.
  split; [vm_compute; reflexivity | ]. split; [vm_compute; reflexivity | ].
  apply (negative_zero_cell (-0.001) (Num 77.21)); reflexivity.
Defined.

End WeatherSpec.

Module FrontendSpec.
Import Js JsFacts Decision Frontend.

(** X14: the confidence bar of the result page shows the band the server
    decides in.  For every processing result the bar is ['high'] exactly
    when [determineClaimDecision] returns APPROVE, ['medium'] exactly for
    MANUAL_REVIEW and ['low'] exactly for REJECT. *)
Theorem progress_fill_matches_decision (result : pythonResult_t) :
  progress_fill result =
    match decision (determineClaimDecision result) with
    | APPROVE => fill_high
    | MANUAL_REVIEW => fill_medium
    | REJECT => fill_low
    end.
Proof.
  unfold progress_fill, confidence, determineClaimDecision.
  destruct (DecisionSpec.confidence_of_finite result) as (c & Hc).
  unfold confidence_of in Hc. rewrite Hc. unfold confidence_of. rewrite Hc.
  cbn [geb ltb].
  assert (E7 : Qle_bool 0.7 c = Qle_bool 0.70 c)
    by (apply Qleb_comp; reflexivity).
  assert (E3 : Qle_bool 0.3 c = Qle_bool 0.30 c)
    by (apply Qleb_comp; reflexivity).
  rewrite E7, E3.
  destruct (Qle_bool 0.70 c) eqn:E1; [reflexivity | ].
  destruct (Qle_bool 0.30 c) eqn:E2; cbn [andb]; [ | reflexivity].
  assert (E : Qltb c 0.70 = true).
  { apply Qltb_lt. apply Qnot_le_lt. intro H.
    apply Qle_bool_iff in H. congruence. }
  rewrite E. reflexivity.
Qed.

Lemma getSeverityFromPercent_num (q : Q) :
  getSeverityFromPercent (Num q) =
    if Qltb 60 q then critical
    else if Qltb 35 q then severe
    else if Qltb 15 q then moderate
    else minimal.
Proof. reflexivity. Qed.

(** X15: the severity bands.  A damage percentage above 60 is critical,
    above 35 and up to 60 severe, above 15 and up to 35 moderate, and
    anything else minimal, including a missing one; a higher percentage
    never has a lower severity. *)
Theorem severity_bands (p q : Q) :
  (getSeverityFromPercent (Num q) = critical <-> 60 < q) /\
  (getSeverityFromPercent (Num q) = severe <-> 35 < q /\ q <= 60) /\
  (getSeverityFromPercent (Num q) = moderate <-> 15 < q /\ q <= 35) /\
  (getSeverityFromPercent (Num q) = minimal <-> q <= 15) /\
  getSeverityFromPercent NaN = minimal /\
  getSeverityFromPercent (damagePercent VUndefined) = minimal /\
  getSeverityFromPercent (damagePercent VNull) = minimal /\
  (p <= q ->
   (severity_rank (getSeverityFromPercent (Num p))
    <= severity_rank (getSeverityFromPercent (Num q)))%nat).
Proof.
  rewrite !getSeverityFromPercent_num.
  assert (Hband : forall x,
             (if Qltb 60 x then critical
              else if Qltb 35 x then severe
              else if Qltb 15 x then moderate else minimal) = critical /\ 60 < x
             \/ (if Qltb 60 x then critical
                 else if Qltb 35 x then severe
                 else if Qltb 15 x then moderate else minimal) = severe
                /\ 35 < x /\ x <= 60
             \/ (if Qltb 60 x then critical
                 else if Qltb 35 x then severe
                 else if Qltb 15 x then moderate else minimal) = moderate
                /\ 15 < x /\ x <= 35
             \/ (if Qltb 60 x then critical
                 else if Qltb 35 x then severe
                 else if Qltb 15 x then moderate else minimal) = minimal
                /\ x <= 15).
  { intro x.
    destruct (Qltb 60 x) eqn:E1; [apply Qltb_lt in E1; left; split; [reflexivity | lra] | ].
    apply Qltb_ge in E1.
    destruct (Qltb 35 x) eqn:E2;
      [apply Qltb_lt in E2; right; left; split; [reflexivity | lra] | ].
    apply Qltb_ge in E2.
    destruct (Qltb 15 x) eqn:E3;
      [apply Qltb_lt in E3; right; right; left; split; [reflexivity | lra] | ].
    apply Qltb_ge in E3. right; right; right. split; [reflexivity | lra]. }
  split; [ | split; [ | split; [ | split; [ | split; [ | split; [ | split ] ] ] ] ] ];
    try reflexivity.
  1-4: destruct (Hband q) as [[-> Hb] | [[-> Hb] | [[-> Hb] | [-> Hb]]]];
    intuition (try discriminate; try lra).
  intro Hpq.
  destruct (Hband p) as [[-> Hp] | [[-> Hp] | [[-> Hp] | [-> Hp]]]];
    destruct (Hband q) as [[-> Hq] | [[-> Hq] | [[-> Hq] | [-> Hq]]]];
    cbn [severity_rank]; try lia; lra.
Qed.

End FrontendSpec.

Module AuthSpec.
Import Js JsFacts Auth.

(** *** The generated code *)

Lemma pretty_N_char_digit (x : N) : is_digit (pretty_N_char x) = true.
Proof.
  unfold pretty_N_char. repeat case_match; reflexivity.
Qed.

(** A number of [k + 1] decimal digits is printed as [k + 1] digits. *)
Lemma pretty_N_go_digits (k : nat) (x : N) (s : string) :
  (10 ^ N.of_nat k <= x < 10 ^ N.of_nat (S k))%N ->
  String.length (pretty_N_go x s) = (S k + String.length s)%nat /\
  (all_digits s = true -> all_digits (pretty_N_go x s) = true).
Proof.
  revert x s. induction k as [ | k IH]; intros x s [Hlo Hhi].
  - change (10 ^ N.of_nat 0)%N with 1%N in Hlo.
    change (10 ^ N.of_nat 1)%N with 10%N in Hhi.
    rewrite pretty_N_go_step by lia.
    rewrite (N.div_small x 10 Hhi), pretty_N_go_0. cbn [String.length all_digits].
    split; [reflexivity | ]. intros ->. rewrite pretty_N_char_digit. reflexivity.
  - assert (E1 : (10 ^ N.of_nat (S k) = 10 * 10 ^ N.of_nat k)%N)
      by (rewrite Nat2N.inj_succ; apply N.pow_succ_r').
    assert (E2 : (10 ^ N.of_nat (S (S k)) = 10 * (10 * 10 ^ N.of_nat k))%N)
      by (rewrite (Nat2N.inj_succ (S k)), N.pow_succ_r', E1; reflexivity).
    assert (Hpos : (0 < 10 ^ N.of_nat k)%N) by (apply N.neq_0_lt_0, N.pow_nonzero; lia).
    rewrite E1 in Hlo. rewrite E2 in Hhi.
    destruct (IH (x `div` 10)%N (String (pretty_N_char (x `mod` 10)) s)) as [Hlen Hdig].
    { rewrite E1. clear IH E1 E2.
      remember (10 ^ N.of_nat k)%N as P eqn:HP. clear HP. split.
      - apply N.div_le_lower_bound; lia.
      - apply N.Div0.div_lt_upper_bound. lia. }
    assert (Hx : (0 < x)%N).
    { clear IH E1 E2 Hlen Hdig. remember (10 ^ N.of_nat k)%N as P eqn:HP. clear HP. lia. }
    rewrite pretty_N_go_step by exact Hx.
    split.
    + rewrite Hlen. cbn [String.length]. lia.
    + intro Hs. apply Hdig. cbn [all_digits].
      rewrite pretty_N_char_digit, Hs. reflexivity.
Qed.

Lemma pretty_six_digits (n : Z) :
  (100000 <= n <= 999999)%Z ->
  String.length (pretty n) = 6%nat /\ all_digits (pretty n) = true.
Proof.
  intros [Hlo Hhi]. destruct n as [ | p | p]; try lia.
  change (pretty (Z.pos p)) with (pretty (N.pos p)).
  unfold pretty, pretty_N. case_decide; [discriminate | ].
  destruct (pretty_N_go_digits 5 (N.pos p) "") as [Hlen Hdig].
  { change (10 ^ N.of_nat 5)%N with 100000%N.
    change (10 ^ N.of_nat 6)%N with 1000000%N. lia. }
  split; [exact Hlen | apply Hdig; reflexivity].
Qed.

Lemma generated_number_range (e : send_env) :
  0 <= s_random e -> s_random e < 1 ->
  (100000 <= Qfloor (100000 + s_random e * 900000) <= 999999)%Z.
Proof.
  intros H0 H1. set (y := 100000 + s_random e * 900000).
  split.
  - rewrite <- (Qfloor_Z 100000). apply Qfloor_resp_le.
    change (inject_Z 100000) with 100000. subst y. lra.
  - pose proof (Qfloor_le y) as Hle.
    assert (H : (Qfloor y < 1000000)%Z).
    { rewrite Zlt_Qlt. change (inject_Z 1000000) with 1000000. subst y. lra. }
    lia.
Qed.

(** X16: the generated code is always six digits.  For every value of
    [Math.random()], which lies in [0, 1), the code sent is the decimal
    form of an integer between 100000 and 999999: six characters, all
    digits, never empty. *)
Theorem generated_otp_six_digits (e : send_env) :
  0 <= s_random e -> s_random e < 1 ->
  (exists n : Z, generate_otp e = pretty n /\ (100000 <= n <= 999999)%Z) /\
  String.length (generate_otp e) = 6%nat /\
  all_digits (generate_otp e) = true.
Proof.
  intros H0 H1. pose proof (generated_number_range e H0 H1) as Hr.
  split; [eexists; split; [reflexivity | exact Hr] | ].
  exact (pretty_six_digits _ Hr).
Qed.

Lemma generated_otp_six_digits_witness :
  generate_otp sample_send = "550000" /\
  String.length (generate_otp sample_send) = 6%nat.
Proof.
  split; [vm_compute; reflexivity | ].
  apply (generated_otp_six_digits sample_send); vm_compute; [discriminate | reflexivity].
Defined.

(** *** The phone-number pattern *)

Lemma matches_digits (k : nat) (s : string) :
  matches (List.repeat Digit k) s = true <->
  String.length s = k /\ all_digits s = true.
Proof.
  revert s. induction k as [ | k IH]; intros [ | c s]; cbn [List.repeat matches String.length all_digits].
  - split; [intros _; split; reflexivity | reflexivity].
  - split; [discriminate | intros [H _]; discriminate].
  - split; [discriminate | intros [H _]; discriminate].
  - unfold is_digit. rewrite andb_true_iff, IH, andb_true_iff.
    split; intros (H1 & H2 & H3); repeat split; try assumption; congruence.
Qed.

Lemma in_range_6_9 (c : ascii) :
  in_class (Range "6" "9") c = true <->
  (c = "6" \/ c = "7" \/ c = "8" \/ c = "9")%char.
Proof.
  unfold in_class. change (nat_of_ascii "6") with 54%nat.
  change (nat_of_ascii "9") with 57%nat.
  rewrite andb_true_iff, !Nat.leb_le. split.
  - intros [Hlo Hhi].
    assert (Hn : (nat_of_ascii c = 54 \/ nat_of_ascii c = 55 \/
                  nat_of_ascii c = 56 \/ nat_of_ascii c = 57)%nat) by lia.
    rewrite <- (ascii_nat_embedding c).
    destruct Hn as [-> | [-> | [-> | ->]]]; auto.
  - intros [-> | [-> | [-> | ->]]]; split; apply Nat.leb_le; reflexivity.
Qed.

(** X17: which phone numbers may ask for a code.  A request is accepted
    exactly when the number is ten characters long, all of them digits, the
    first one 6, 7, 8 or 9; an accepted request stores the new code with an
    expiry ten minutes ahead, replacing any earlier code for the number; a
    rejected one changes nothing; the code is echoed in development
    only. *)
Theorem send_otp_validation (st : state) (e : send_env) (p : string) :
  (fst (send_otp st e (Some p)) <> SendRejected <->
   exists c rest, p = String c rest /\
                  (c = "6" \/ c = "7" \/ c = "8" \/ c = "9")%char /\
                  String.length rest = 9%nat /\ all_digits rest = true) /\
  (fst (send_otp st e (Some p)) = SendRejected -> snd (send_otp st e (Some p)) = st) /\
  (fst (send_otp st e (Some p)) <> SendRejected ->
   otpStore (snd (send_otp st e (Some p))) !! p
     = Some {| otp := generate_otp e; otpExpiry := (s_now e + 600000)%Z |} /\
   users (snd (send_otp st e (Some p))) = users st /\
   (forall q, q <> p ->
              otpStore (snd (send_otp st e (Some p))) !! q = otpStore st !! q) /\
   fst (send_otp st e (Some p))
     = SendOk (if s_development e then Some (generate_otp e) else None)) /\
  fst (send_otp st e None) = SendRejected.
Proof.
  assert (Hpat : matches phone_pattern p = true <->
                 exists c rest, p = String c rest /\
                   (c = "6" \/ c = "7" \/ c = "8" \/ c = "9")%char /\
                   String.length rest = 9%nat /\ all_digits rest = true).
  { unfold phone_pattern. destruct p as [ | c rest]; cbn [matches].
    - split; [discriminate | intros (c & rest & H & _); discriminate].
    - rewrite andb_true_iff, in_range_6_9, matches_digits. split.
      + intros (Hc & Hl & Hd). exists c, rest. auto.
      + intros (c' & rest' & [= -> ->] & Hc & Hl & Hd). auto. }
  assert (Hfalsy : matches phone_pattern p = true -> falsy (Some p) = false).
  { intro H. destruct p; [discriminate | reflexivity]. }
  unfold send_otp.
  destruct (matches phone_pattern p) eqn:E.
  - rewrite (Hfalsy eq_refl). cbn [orb negb fst snd users otpStore].
    split; [ | split; [ | split; [ | reflexivity ] ] ].
    + split; [intros _; apply Hpat; reflexivity | discriminate].
    + discriminate.
    + intros _. split; [apply lookup_insert_eq | ]. split; [reflexivity | ].
      split; [ | reflexivity].
      intros q Hq. apply lookup_insert_ne. congruence.
  - rewrite orb_true_r. cbn [fst snd].
    split; [ | split; [ | split; [ | reflexivity ] ] ].
    + split; [intro H; exfalso; apply H; reflexivity | ].
      intro H. apply Hpat in H. discriminate.
    + reflexivity.
    + intro H. exfalso. apply H. reflexivity.
Qed.

(** *** What each answer of the verification means *)

Lemma add_user_lookup (us : gmap string user) (p : string) (t : Z) (a : bool) :
  is_Some (add_user us p t a !! p).
Proof.
  unfold add_user. destruct (us !! p) as [u | ] eqn:E.
  - rewrite E. eexists. reflexivity.
  - rewrite lookup_insert_eq. eexists. reflexivity.
Qed.

Lemma add_user_keeps (us : gmap string user) (p q : string) (t : Z) (a : bool)
      (u : user) :
  us !! q = Some u -> add_user us p t a !! q = Some u.
Proof.
  intro H. unfold add_user. destruct (us !! p) as [u' | ] eqn:E; [exact H | ].
  rewrite lookup_insert_ne; [exact H | ]. intros ->. congruence.
Qed.

Lemma falsy_Some (s : string) : falsy (Some s) = false <-> s <> "".
Proof.
  unfold falsy. split.
  - intros H ->. discriminate.
  - intro H. apply String.eqb_neq. exact H.
Qed.

(** What a regular login answer tells about the request and the state. *)
Lemma login_requires_stored_code_aux (st : state) (e : verify_env)
      (phone code : option string) :
  match fst (verify_otp st e phone code) with
  | Login tk =>
      exists p c entry,
        phone = Some p /\ code = Some c /\ c <> ADMIN_OTP /\
        otpStore st !! p = Some entry /\ otp entry = c /\
        (v_now_expiry e <= otpExpiry entry)%Z /\
        tk = {| tk_phone := p; tk_time := v_now_token e; tk_admin := false |} /\
        otpStore (snd (verify_otp st e phone code)) !! p = None /\
        is_Some (users (snd (verify_otp st e phone code)) !! p) /\
        falsy (Some p) = false /\ falsy (Some c) = false
  | _ => True
  end.
Proof.
  unfold verify_otp.
  destruct phone as [p | ], code as [c | ]; cbn [fst]; try exact I.
  destruct (falsy (Some p)) eqn:Ep; cbn [orb fst]; [exact I | ].
  destruct (falsy (Some c)) eqn:Ec; cbn [fst]; [exact I | ].
  destruct (String.eqb c ADMIN_OTP) eqn:Ea; cbn [fst snd users otpStore]; [exact I | ].
  apply String.eqb_neq in Ea.
  destruct (otpStore st !! p) as [entry | ] eqn:Es; cbn [fst]; [ | exact I].
  destruct (otpExpiry entry <? v_now_expiry e)%Z eqn:Ex; cbn [fst]; [exact I | ].
  destruct (String.eqb (otp entry) c) eqn:Eo; cbn [negb fst snd users otpStore];
    [ | exact I].
  apply String.eqb_eq in Eo. apply Z.ltb_ge in Ex.
  exists p, c, entry. repeat split; try assumption; try reflexivity.
  - apply lookup_delete_eq.
  - apply add_user_lookup.
Qed.

(** X18: a login needs the stored code.  The regular login answer is given
    only when the code supplied equals the code stored for that number and
    the stored expiry has not passed; it consumes the stored code and leaves
    a verified user.  The admin answer is given exactly for the admin code
    258369 with a non-empty number, and leaves the stored codes alone. *)
Theorem login_requires_stored_code (st : state) (e : verify_env)
        (phone code : option string) :
  match fst (verify_otp st e phone code) with
  | Login tk =>
      exists p c entry,
        phone = Some p /\ code = Some c /\ c <> ADMIN_OTP /\
        otpStore st !! p = Some entry /\ otp entry = c /\
        (v_now_expiry e <= otpExpiry entry)%Z /\
        tk = {| tk_phone := p; tk_time := v_now_token e; tk_admin := false |} /\
        otpStore (snd (verify_otp st e phone code)) !! p = None /\
        is_Some (users (snd (verify_otp st e phone code)) !! p)
  | AdminLogin tk =>
      exists p,
        phone = Some p /\ p <> "" /\ code = Some ADMIN_OTP /\
        tk = {| tk_phone := p; tk_time := v_now_token e; tk_admin := true |} /\
        otpStore (snd (verify_otp st e phone code)) = otpStore st /\
        is_Some (users (snd (verify_otp st e phone code)) !! p)
  | _ => True
  end.
Proof.
  unfold verify_otp.
  destruct phone as [p | ], code as [c | ]; cbn [fst]; try exact I.
  destruct (falsy (Some p)) eqn:Ep; cbn [orb fst]; [exact I | ].
  destruct (falsy (Some c)) eqn:Ec; cbn [fst]; [exact I | ].
  apply falsy_Some in Ep.
  destruct (String.eqb c ADMIN_OTP) eqn:Ea; cbn [fst snd users otpStore].
  - apply String.eqb_eq in Ea. subst c.
    exists p. repeat split; try assumption; try reflexivity. apply add_user_lookup.
  - apply String.eqb_neq in Ea.
    destruct (otpStore st !! p) as [entry | ] eqn:Es; cbn [fst]; [ | exact I].
    destruct (otpExpiry entry <? v_now_expiry e)%Z eqn:Ex; cbn [fst]; [exact I | ].
    destruct (String.eqb (otp entry) c) eqn:Eo; cbn [negb fst snd users otpStore];
      [ | exact I].
    apply String.eqb_eq in Eo. apply Z.ltb_ge in Ex.
    exists p, c, entry. repeat split; try assumption; try reflexivity.
    + apply lookup_delete_eq.
    + apply add_user_lookup.
Qed.

(** X19: a failed verification costs nothing but an expired code.  After
    the answers "phone number and OTP required", "OTP not found" and
    "invalid OTP" both stores are exactly as before, so a wrong guess does
    not consume the stored code; after "OTP expired", which is given
    whenever the stored expiry is strictly before the clock, even for the
    right code, the stored code is deleted and the users are as before. *)
Theorem failed_verification_effects (st : state) (e : verify_env)
        (phone code : option string) :
  match fst (verify_otp st e phone code) with
  | Missing | OtpNotFound | InvalidOtp => snd (verify_otp st e phone code) = st
  | OtpExpired =>
      exists p entry,
        phone = Some p /\ otpStore st !! p = Some entry /\
        (otpExpiry entry < v_now_expiry e)%Z /\
        users (snd (verify_otp st e phone code)) = users st /\
        otpStore (snd (verify_otp st e phone code)) = delete p (otpStore st)
  | Login _ | AdminLogin _ => True
  end.
Proof.
  unfold verify_otp.
  destruct phone as [p | ], code as [c | ]; cbn [fst snd]; try reflexivity.
  destruct (falsy (Some p) || falsy (Some c)); cbn [fst snd]; [reflexivity | ].
  destruct (String.eqb c ADMIN_OTP); cbn [fst]; [exact I | ].
  destruct (otpStore st !! p) as [entry | ] eqn:Es; cbn [fst snd]; [ | reflexivity].
  destruct (otpExpiry entry <? v_now_expiry e)%Z eqn:Ex; cbn [fst snd users otpStore].
  - apply Z.ltb_lt in Ex. exists p, entry. repeat split; assumption.
  - destruct (String.eqb (otp entry) c); cbn [negb fst snd]; [exact I | reflexivity].
Qed.

(** X20: the admin code opens every account.  For every state, whatever was
    or was not requested before, and for every non-empty phone number, of
    whatever form, the code 258369 gives the admin login for that number
    and leaves the stored codes as they are. *)
Theorem admin_code_always_logs_in (st : state) (e : verify_env) (p : string) :
  p <> "" ->
  fst (verify_otp st e (Some p) (Some ADMIN_OTP))
    = AdminLogin {| tk_phone := p; tk_time := v_now_token e; tk_admin := true |} /\
  otpStore (snd (verify_otp st e (Some p) (Some ADMIN_OTP))) = otpStore st /\
  (users st !! p = None ->
   users (snd (verify_otp st e (Some p) (Some ADMIN_OTP))) !! p
     = Some {| phoneNumber := p; createdAt := v_now_created e;
               isVerified := true; isAdmin := true |}).
Proof.
  intro Hp. apply falsy_Some in Hp. unfold verify_otp. rewrite Hp.
  cbn [orb falsy]. change (String.eqb ADMIN_OTP "") with false.
  rewrite String.eqb_refl. cbn [fst snd users otpStore].
  split; [reflexivity | ]. split; [reflexivity | ].
  intro Hn. unfold add_user. rewrite Hn. apply lookup_insert_eq.
Qed.

(** The admin code on an empty server, for a number that is no phone
    number. *)
Lemma admin_code_always_logs_in_witness :
  fst (verify_otp empty_state (sample_verify 5) (Some "x") (Some "258369"))
    = AdminLogin {| tk_phone := "x"; tk_time := 5; tk_admin := true |}.
Proof.
  apply (admin_code_always_logs_in empty_state (sample_verify 5) "x").
  discriminate.
Defined.

(** *** Sending, then verifying *)

Lemma generate_otp_not_empty (e : send_env) :
  0 <= s_random e -> s_random e < 1 -> falsy (Some (generate_otp e)) = false.
Proof.
  intros H0 H1. apply falsy_Some. intro Hempty.
  destruct (pretty_six_digits _ (generated_number_range e H0 H1)) as [Hlen _].
  unfold generate_otp in Hempty. rewrite Hempty in Hlen. discriminate.
Qed.

(** X21: a code that was sent logs its number in.  After an accepted
    request for a valid number, verifying the generated code while the
    clock has not passed the expiry (ten minutes after the request,
    inclusive) succeeds, consumes the code and leaves a user for the
    number.  The login is the regular one, unless the generated code
    happens to be 258369, in which case it is the admin login. *)
Theorem otp_round_trip (st : state) (e : send_env) (ev : verify_env) (p : string) :
  matches phone_pattern p = true ->
  0 <= s_random e -> s_random e < 1 ->
  (v_now_expiry ev <= s_now e + 600000)%Z ->
  let st1 := snd (send_otp st e (Some p)) in
  let r := verify_otp st1 ev (Some p) (Some (generate_otp e)) in
  fst r =
    (if String.eqb (generate_otp e) ADMIN_OTP
     then AdminLogin {| tk_phone := p; tk_time := v_now_token ev; tk_admin := true |}
     else Login {| tk_phone := p; tk_time := v_now_token ev; tk_admin := false |}) /\
  (generate_otp e <> ADMIN_OTP -> otpStore (snd r) !! p = None) /\
  is_Some (users (snd r) !! p).
Proof.
  intros Hm H0 H1 Hexp st1 r.
  assert (Hp : falsy (Some p) = false) by (destruct p; [discriminate | reflexivity]).
  pose proof (generate_otp_not_empty e H0 H1) as Ho.
  assert (Hst1 : st1 = {| users := users st;
                          otpStore := <[p := {| otp := generate_otp e;
                                                otpExpiry := (s_now e + 10 * 60 * 1000)%Z |}]>
                                        (otpStore st) |}).
  { subst st1. unfold send_otp. rewrite Hp, Hm. reflexivity. }
  subst r. unfold verify_otp. rewrite Hp, Ho. cbn [orb].
  destruct (String.eqb (generate_otp e) ADMIN_OTP) eqn:Ea; cbn [fst snd users].
  - split; [reflexivity | ]. split.
    + intro Hne. apply String.eqb_eq in Ea. contradiction.
    + apply add_user_lookup.
  - rewrite Hst1. cbn [otpStore users]. rewrite lookup_insert_eq. cbn [otpExpiry otp].
    assert (Hx : (s_now e + 10 * 60 * 1000 <? v_now_expiry ev)%Z = false)
      by (apply Z.ltb_ge; lia).
    rewrite Hx, String.eqb_refl. cbn [negb fst snd users otpStore].
    split; [reflexivity | ]. split.
    + intros _. apply lookup_delete_eq.
    + apply add_user_lookup.
Qed.

(** Number 9876543210, code 550000, verified exactly at the expiry. *)
Lemma otp_round_trip_witness :
  let st1 := snd (send_otp empty_state sample_send (Some "9876543210")) in
  generate_otp sample_send = "550000" /\
  fst (verify_otp st1 (sample_verify 601000) (Some "9876543210") (Some "550000"))
    = Login {| tk_phone := "9876543210"; tk_time := 601000; tk_admin := false |}.
Proof.
  cbv zeta.
  assert (Hg : generate_otp sample_send = "550000") by (vm_compute; reflexivity).
  split; [exact Hg | ].
  destruct (otp_round_trip empty_state sample_send (sample_verify 601000) "9876543210")
    as [Hr _].
  - reflexivity.
  - vm_compute; discriminate.
  - vm_compute; reflexivity.
  - vm_compute; discriminate.
  - rewrite Hg in Hr. exact Hr.
Defined.

(** X22: a code works once.  After a regular login the number has no stored
    code any more: verifying the same code again, or any other code than
    the admin one, is answered "OTP not found". *)
Theorem otp_single_use (st : state) (e e' : verify_env) (phone code : option string)
        (tk : token_t) (c' : string) :
  fst (verify_otp st e phone code) = Login tk ->
  c' <> ADMIN_OTP -> c' <> "" ->
  fst (verify_otp (snd (verify_otp st e phone code)) e' phone code) = OtpNotFound /\
  fst (verify_otp (snd (verify_otp st e phone code)) e' phone (Some c')) = OtpNotFound.
Proof.
  intros Hlogin Hc' Hne.
  pose proof (login_requires_stored_code_aux st e phone code) as H.
  rewrite Hlogin in H.
  destruct H as (p & c & entry & -> & -> & Hca & _ & _ & _ & _ & Hdel & _ & Hp & Hc).
  set (st' := snd (verify_otp st e (Some p) (Some c))) in *.
  apply falsy_Some in Hne.
  unfold verify_otp. rewrite Hp, Hc, Hne. cbn [orb].
  apply String.eqb_neq in Hca, Hc'. rewrite Hca, Hc', Hdel. split; reflexivity.
Qed.

Lemma otp_single_use_witness :
  let st1 := snd (send_otp empty_state sample_send (Some "9876543210")) in
  let st2 := snd (verify_otp st1 (sample_verify 2000) (Some "9876543210") (Some "550000")) in
  fst (verify_otp st2 (sample_verify 3000) (Some "9876543210") (Some "550000"))
    = OtpNotFound.
Proof.
  cbv zeta.
  apply (otp_single_use
           (snd (send_otp empty_state sample_send (Some "9876543210")))
           (sample_verify 2000) (sample_verify 3000)
           (Some "9876543210") (Some "550000")
           {| tk_phone := "9876543210"; tk_time := 2000; tk_admin := false |}
           "000000").
  - vm_compute; reflexivity.
  - discriminate.
  - discriminate.
Defined.

(** X23: users are only ever added.  No request to either endpoint removes
    or changes a stored user; in particular a user who logs in with the
    admin code keeps the record, and the [isAdmin] value, stored before. *)
Theorem users_only_grow (st : state) (q : string) (u : user)
        (es : send_env) (ev : verify_env) (phone code : option string) :
  users st !! q = Some u ->
  users (snd (send_otp st es phone)) !! q = Some u /\
  users (snd (verify_otp st ev phone code)) !! q = Some u.
Proof.
  intro Hu. split.
  - unfold send_otp. destruct phone as [p | ]; [ | exact Hu].
    destruct (falsy (Some p) || negb (matches phone_pattern p)); exact Hu.
  - unfold verify_otp.
    destruct phone as [p | ], code as [c | ]; try exact Hu.
    destruct (falsy (Some p) || falsy (Some c)); [exact Hu | ].
    destruct (String.eqb c ADMIN_OTP); cbn [snd users];
      [apply add_user_keeps; exact Hu | ].
    destruct (otpStore st !! p) as [entry | ]; [ | exact Hu].
    destruct (otpExpiry entry <? v_now_expiry ev)%Z; [exact Hu | ].
    destruct (negb (String.eqb (otp entry) c)); cbn [snd users];
      [exact Hu | apply add_user_keeps; exact Hu].
Qed.

(** The registered user logs in with the admin code: the answer is the
    admin login, the stored record still says [isAdmin = false]. *)
Lemma users_only_grow_witness :
  let r := verify_otp registered_state (sample_verify 9) (Some "9876543210")
                      (Some "258369") in
  fst r = AdminLogin {| tk_phone := "9876543210"; tk_time := 9; tk_admin := true |} /\
  users (snd r) !! "9876543210"
    = Some {| phoneNumber := "9876543210"; createdAt := 0;
              isVerified := true; isAdmin := false |}.
Proof.
  cbv zeta. split; [reflexivity | ].
  apply (users_only_grow registered_state "9876543210"
           {| phoneNumber := "9876543210"; createdAt := 0;
              isVerified := true; isAdmin := false |}
           sample_send (sample_verify 9) (Some "9876543210") (Some "258369")).
  reflexivity.
Defined.

End AuthSpec.

Module ClaimsSpec.
Import Js JsFacts Decision Claims.

(** *** The scan of the uploaded files *)

Lemma scan_from (files : list file_t) (acc : scan_t) :
  fold_left scan_step files acc =
    {| imagePaths := imagePaths acc ++ map filePath (List.filter is_photo files);
       userLat := match userLat acc with
                  | Some x => Some x
                  | None => match List.filter is_reference files with
                            | f :: _ => Some (lat f)
                            | [] => None
                            end
                  end;
       userLon := match userLat acc with
                  | Some _ => userLon acc
                  | None => match List.filter is_reference files with
                            | f :: _ => Some (lon f)
                            | [] => userLon acc
                            end
                  end |}.
Proof.
  revert acc. induction files as [ | f files IH]; intros [ps ulat ulon].
  - cbn. rewrite app_nil_r. destruct ulat; reflexivity.
  - cbn [fold_left]. rewrite IH. unfold scan_step, is_reference.
    cbn [List.filter map imagePaths userLat userLon].
    destruct (is_photo f); cbn [andb]; [ | reflexivity].
    destruct ulat as [x | ].
    + cbn [imagePaths userLat userLon]. rewrite <- app_assoc. reflexivity.
    + destruct (truthy (VNum (lat f)));
        cbn [imagePaths userLat userLon]; rewrite <- app_assoc; reflexivity.
Qed.

(** X24: what the batch processing takes from the uploaded files.  The image
    paths are those of the photos, in order (videos and files without a path
    are skipped); the estimated field size is 1500 per photo; the user
    location handed to the pipeline is that of the first photo whose
    latitude is not 0, and there is none when every photo lies on the
    equator. *)
Theorem scan_files_result (files : list file_t) :
  let s := scan_files files in
  imagePaths s = map filePath (List.filter is_photo files) /\
  estimatedFieldSize s = (length (List.filter is_photo files) * 1500)%nat /\
  (userLat s, userLon s) =
    match List.filter is_reference files with
    | f :: _ => (Some (lat f), Some (lon f))
    | [] => (None, None)
    end /\
  ((forall f, In f files -> is_photo f = true -> lat f = Num 0) -> userLat s = None).
Proof.
  cbv zeta. unfold scan_files, estimatedFieldSize. rewrite scan_from.
  cbn [imagePaths userLat userLon app].
  split; [reflexivity | ]. split; [rewrite length_map; reflexivity | ].
  split; [destruct (List.filter is_reference files); reflexivity | ].
  intro H.
  rewrite (GeolocationSpec.filter_none is_reference files); [reflexivity | ].
  intros f Hin. unfold is_reference.
  destruct (is_photo f) eqn:E; [ | reflexivity].
  rewrite (H f Hin E). reflexivity.
Qed.

(** *** The store *)

Lemma set_property_lookup {A : Type} (obj : gmap string A) (key k : string) (v x : A) :
  set_property obj key v !! k = Some x ->
  (k = key /\ x = v /\ key <> "__proto__") \/ obj !! k = Some x.
Proof.
  unfold set_property. destruct (String.eqb key "__proto__") eqn:E; [right; assumption | ].
  apply String.eqb_neq in E.
  destruct (decide (key = k)) as [<- | Hne].
  - rewrite lookup_insert_eq. intros [= <-]. left. auto.
  - rewrite lookup_insert_ne by assumption. right. assumption.
Qed.

Lemma fresh_claim_well_formed (id : string) (now : Z) :
  well_formed id (fresh_claim id now).
Proof.
  unfold well_formed, fresh_claim; cbn.
  split; [reflexivity | ]. split; [left; reflexivity | ].
  split; [split; [discriminate | intro H; exfalso; apply H; reflexivity] | ].
  intros k f. rewrite lookup_empty. discriminate.
Qed.

Lemma step_well_formed (store : gmap string claim) (q : request) :
  map_Forall well_formed store -> map_Forall well_formed (step store q).
Proof.
  intro Hwf. destruct q as [e insurance | r | e id]; cbn [step].
  - unfold initialize; cbn [snd]. apply map_Forall_insert_2; [ | exact Hwf].
    unfold well_formed; cbn.
    split; [reflexivity | ]. split; [right; left; reflexivity | ].
    split; [split; [discriminate | intro H; exfalso; apply H; reflexivity] | ].
    intros k f. rewrite lookup_empty. discriminate.
  - unfold upload. destruct (u_file r) as [f | ]; [ | exact Hwf].
    destruct (is_nan (u_lat r)) eqn:Elat; cbn [orb]; [exact Hwf | ].
    destruct (is_nan (u_lon r)) eqn:Elon; [exact Hwf | ].
    cbn [snd]. apply map_Forall_insert_2; [ | exact Hwf].
    assert (Hc : well_formed (u_parcel_id r)
                   match store !! u_parcel_id r with
                   | Some c => c
                   | None => fresh_claim (u_parcel_id r) (u_now r)
                   end).
    { destruct (store !! u_parcel_id r) as [c | ] eqn:E.
      - exact (Hwf _ _ E).
      - apply fresh_claim_well_formed. }
    revert Hc. generalize (match store !! u_parcel_id r with
                           | Some c => c
                           | None => fresh_claim (u_parcel_id r) (u_now r)
                           end).
    intros c (H1 & H2 & H3 & H4). unfold well_formed; cbn.
    split; [exact H1 | ]. split; [exact H2 | ]. split; [exact H3 | ].
    intros k x Hk. apply set_property_lookup in Hk.
    destruct Hk as [(-> & -> & _) | Hk]; [ | exact (H4 k x Hk)].
    cbn. repeat split; try assumption.
    destruct (u_media_type r) as [m | ]; [ | discriminate].
    destruct (String.eqb m "") eqn:Em; [discriminate | ].
    apply String.eqb_neq. exact Em.
  - unfold complete. destruct id as [d | ]; [ | exact Hwf].
    destruct (String.eqb d ""); [exact Hwf | ].
    destruct (store !! d) as [c | ] eqn:E; [ | exact Hwf].
    cbn [snd]. apply map_Forall_insert_2; [ | exact Hwf].
    destruct (Hwf _ _ E) as (H1 & H2 & H3 & H4). unfold well_formed; cbn.
    split; [exact H1 | ]. split; [right; right; reflexivity | ].
    split; [split; [discriminate | reflexivity] | exact H4].
Qed.

Lemma serve_well_formed (qs : list request) (store : gmap string claim) :
  map_Forall well_formed store -> map_Forall well_formed (fold_left step qs store).
Proof.
  revert store. induction qs as [ | q qs IH]; intros store H; [exact H | ].
  cbn [fold_left]. apply IH, step_well_formed, H.
Qed.

(** X25: what the store holds after any sequence of requests.  Every claim
    is stored under its own [documentId]; its status is absent, 'draft' or
    'submitted', and it is 'submitted' exactly when a processing result is
    stored; every uploaded file is stored under its own step, with
    coordinates that are numbers.  The server itself never marks a claim
    approved or rejected: the list endpoint only ever reports 'draft' or
    'submitted'. *)
Theorem store_invariant (qs : list request) :
  map_Forall well_formed (serve qs) /\
  map_Forall (fun _ l => lc_status l = "draft" \/ lc_status l = "submitted")
             (list_claims (serve qs)).
Proof.
  assert (H : map_Forall well_formed (serve qs)).
  { apply serve_well_formed. intros k c. rewrite lookup_empty. discriminate. }
  split; [exact H | ].
  intros id l. unfold list_claims. rewrite lookup_fmap.
  destruct (serve qs !! id) as [c | ] eqn:E; [ | discriminate].
  cbn. intros [= <-]. destruct (H _ _ E) as (_ & [Hs | [Hs | Hs]] & _);
    unfold list_entry; cbn [lc_status]; rewrite Hs; auto.
Qed.

Lemma scan_no_photo (files : list file_t) :
  (forall f, In f files -> is_photo f = false) ->
  imagePaths (scan_files files) = [].
Proof.
  intro H. unfold scan_files. rewrite scan_from. cbn [imagePaths app].
  rewrite (GeolocationSpec.filter_none is_photo files H). reflexivity.
Qed.

Lemma scan_some_photo (files : list file_t) (f : file_t) :
  In f files -> is_photo f = true ->
  (length (imagePaths (scan_files files)) <? 1)%nat = false.
Proof.
  intros Hin Hp. unfold scan_files. rewrite scan_from. cbn [imagePaths app].
  rewrite length_map.
  assert (Hf : In f (List.filter is_photo files)) by (apply filter_In; auto).
  destruct (List.filter is_photo files); [destruct Hf | reflexivity].
Qed.

Lemma values_of_In (files : gmap string file_t) (f : file_t) :
  In f (values_of files) <-> exists k, files !! k = Some f.
Proof.
  unfold values_of. rewrite in_map_iff. split.
  - intros ([k x] & <- & Hin). exists k.
    apply elem_of_map_to_list. apply list_elem_of_In. exact Hin.
  - intros (k & Hk). exists (k, f). split; [reflexivity | ].
    apply list_elem_of_In. apply elem_of_map_to_list. exact Hk.
Qed.

(** X26: completing a known claim always succeeds.  For a claim in the
    store and a non-empty identifier the answer is the success answer and
    the claim becomes 'submitted' with the result stored, whatever the
    Python process does; the result is the pipeline's output only when
    some uploaded file is a photo, the script exists and the process
    delivered, and the fallback result otherwise; no other claim is
    touched. *)
Theorem complete_known_claim (store : gmap string claim) (e : complete_env)
        (d : string) (c : claim) :
  store !! d = Some c -> d <> "" ->
  let out := complete store e (Some d) in
  exists r c',
    fst out = Completed d r /\
    snd out !! d = Some c' /\
    status c' = Some "submitted" /\ processing_result c' = Some r /\
    m_completedAt (metadata c') = Some (c_now e) /\
    uploaded_files c' = uploaded_files c /\
    (forall k, k <> d -> snd out !! k = store !! k) /\
    (forall p, r = FromPython p ->
               c_python e = Some p /\ c_worker_exists e = true /\
               exists k f, uploaded_files c !! k = Some f /\ is_photo f = true) /\
    ((forall k f, uploaded_files c !! k = Some f -> is_photo f = false) ->
     r = Fallback NoValidImages) /\
    (c_python e = None -> exists reason, r = Fallback reason).
Proof.
  intros Hc Hd out. subst out. unfold complete.
  apply String.eqb_neq in Hd. rewrite Hd, Hc. cbn [fst snd].
  eexists. eexists. split; [reflexivity | ].
  split; [apply lookup_insert_eq | ]. cbn.
  split; [reflexivity | ]. split; [reflexivity | ]. split; [reflexivity | ].
  split; [reflexivity | ].
  split; [intros k Hk; apply lookup_insert_ne; congruence | ].
  unfold processBatchWithPython.
  destruct (length (imagePaths (scan_files (values_of (uploaded_files c)))) <? 1)%nat
    eqn:Escan.
  - split; [intros p [=] | ]. split; [reflexivity | ]. intros _. eexists. reflexivity.
  - assert (Hphoto : exists k f, uploaded_files c !! k = Some f /\ is_photo f = true).
    { destruct (List.filter is_photo (values_of (uploaded_files c))) as [ | f fs] eqn:Ef.
      - exfalso. revert Escan. unfold scan_files. rewrite scan_from.
        cbn [imagePaths app]. rewrite Ef. discriminate.
      - assert (Hin : In f (List.filter is_photo (values_of (uploaded_files c))))
          by (rewrite Ef; left; reflexivity).
        apply filter_In in Hin. destruct Hin as [Hin Hp].
        apply values_of_In in Hin. destruct Hin as (k & Hk). exists k, f. auto. }
    split; [ | split].
    + destruct (c_worker_exists e); cbn [negb]; [ | intros p [=]].
      destruct (c_python e) as [p' | ]; [ | intros p [=]].
      intros p [= <-]. auto.
    + intro Hnone. exfalso. destruct Hphoto as (k & f & Hk & Hp).
      rewrite (Hnone k f Hk) in Hp. discriminate.
    + intro Hpy. rewrite Hpy.
      destruct (c_worker_exists e); cbn [negb]; eexists; reflexivity.
Qed.

(** One photo uploaded, then completion while the Python process fails:
    the claim is submitted with a fallback result. *)
Lemma complete_known_claim_witness :
  let store := snd (upload ∅ (sample_upload "corner-ne")) in
  fst (complete store python_fails (Some "CLM-1"))
    = Completed "CLM-1" (Fallback PythonFailed).
Proof.
  cbv zeta.
  destruct (complete_known_claim (snd (upload ∅ (sample_upload "corner-ne")))
              python_fails "CLM-1"
              {| documentId := "CLM-1"; insuranceId := None;
                 uploaded_files :=
                   {[ "corner-ne" :=
                      {| filePath := "uploads/1.jpg"; originalName := "ne.jpg";
                         fileSize := 2048; mimeType := "image/jpeg";
                         lat := Num 18.52; lon := Num 73.85;
                         timestamp := Num 1700; stepId := "corner-ne";
                         mediaType := "photo" |} ]};
                 status := None; createdAt := None;
                 metadata := {| m_timestamp := 1800; m_status := None;
                                m_completedAt := None |};
                 processing_result := None |})
    as (r & c' & Hr & _).
  - vm_compute. reflexivity.
  - discriminate.
  - vm_compute. reflexivity.
Defined.

(** X27: what an upload does.  A request without a file, or with a
    coordinate that does not parse, is refused and changes nothing.  An
    accepted one stores the file under its step in the claim of its parcel,
    creating the claim when the parcel is unknown, and reports the number of
    steps now stored: one more for a new step, the same for a step uploaded
    again (the file is replaced); the step ["__proto__"] is never stored. *)
Theorem upload_effects (store : gmap string claim) (r : upload_request) :
  let files0 := match store !! u_parcel_id r with
                | Some c => uploaded_files c
                | None => ∅
                end in
  let out := upload store r in
  (u_file r = None -> out = (NoFile, store)) /\
  (u_file r <> None -> is_nan (u_lat r) || is_nan (u_lon r) = true ->
   out = (InvalidCoordinates, store)) /\
  (u_file r <> None -> is_nan (u_lat r) || is_nan (u_lon r) = false ->
   fst out =
     Uploaded (u_step_id r)
              (if String.eqb (u_step_id r) "__proto__" then size files0
               else match files0 !! u_step_id r with
                    | Some _ => size files0
                    | None => S (size files0)
                    end) /\
   (forall k, k <> u_parcel_id r -> snd out !! k = store !! k) /\
   exists c',
     snd out !! u_parcel_id r = Some c' /\
     (forall k, k <> u_step_id r -> uploaded_files c' !! k = files0 !! k) /\
     (u_step_id r = "__proto__" -> uploaded_files c' = files0) /\
     (u_step_id r <> "__proto__" ->
      exists x, uploaded_files c' !! u_step_id r = Some x /\
                lat x = u_lat r /\ lon x = u_lon r /\ stepId x = u_step_id r)).
Proof.
  cbv zeta. unfold upload.
  destruct (u_file r) as [f | ].
  - split; [discriminate | ].
    destruct (is_nan (u_lat r) || is_nan (u_lon r)).
    + split; [reflexivity | ]. intros _ [=].
    + split; [intros _ [=] | ]. intros _ _. cbn [fst snd].
      assert (Hfiles : uploaded_files
                         match store !! u_parcel_id r with
                         | Some c => c
                         | None => fresh_claim (u_parcel_id r) (u_now r)
                         end
                       = match store !! u_parcel_id r with
                         | Some c => uploaded_files c
                         | None => ∅
                         end).
      { destruct (store !! u_parcel_id r); reflexivity. }
      rewrite Hfiles.
      set (files0 := match store !! u_parcel_id r with
                     | Some c => uploaded_files c
                     | None => ∅
                     end).
      split; [ | split ].
      * f_equal. unfold set_property.
        destruct (String.eqb (u_step_id r) "__proto__"); [reflexivity | ].
        rewrite map_size_insert. destruct (files0 !! u_step_id r); reflexivity.
      * intros k Hk. apply lookup_insert_ne. congruence.
      * eexists. split; [apply lookup_insert_eq | ]. cbn [uploaded_files].
        unfold set_property.
        destruct (String.eqb (u_step_id r) "__proto__") eqn:E.
        -- split; [reflexivity | ]. split; [reflexivity | ].
           intro H. apply String.eqb_eq in E. contradiction.
        -- split; [intros k Hk; apply lookup_insert_ne; congruence | ].
           split; [intro H; apply String.eqb_neq in E; contradiction | ].
           intros _. eexists. split; [apply lookup_insert_eq | ].
           repeat split.
  - split; [reflexivity | ]. split; intro H; exfalso; apply H; reflexivity.
Qed.

(** The same step uploaded twice: the count stays 1. *)
Lemma upload_effects_witness :
  let s1 := snd (upload ∅ (sample_upload "corner-ne")) in
  fst (upload ∅ (sample_upload "corner-ne")) = Uploaded "corner-ne" 1 /\
  fst (upload s1 (sample_upload "corner-ne")) = Uploaded "corner-ne" 1 /\
  fst (upload s1 (sample_upload "corner-nw")) = Uploaded "corner-nw" 2.
Proof.
  cbv zeta.
  pose proof (upload_effects ∅ (sample_upload "corner-ne")) as H0.
  pose proof (upload_effects (snd (upload ∅ (sample_upload "corner-ne")))
                (sample_upload "corner-ne")) as H1.
  pose proof (upload_effects (snd (upload ∅ (sample_upload "corner-ne")))
                (sample_upload "corner-nw")) as H2.
  cbv zeta in H0, H1, H2.
  destruct H0 as (_ & _ & H0). destruct H1 as (_ & _ & H1).
  destruct H2 as (_ & _ & H2).
  destruct (H0 ltac:(discriminate) eq_refl) as [E0 _].
  destruct (H1 ltac:(discriminate) eq_refl) as [E1 _].
  destruct (H2 ltac:(discriminate) eq_refl) as [E2 _].
  split; [rewrite E0; vm_compute; reflexivity | ].
  split; [rewrite E1; vm_compute; reflexivity | ].
  rewrite E2; vm_compute; reflexivity.
Defined.

End ClaimsSpec.
